(** * A task board with browser-local persistence

    Shallow embedding of the board / list / card store of the repository:
    - [src/services/storage.ts]: the [StorageService] class over
      [localStorage];
    - the zustand store ([useAppStore]) with its load, create, update,
      delete, reorder and move actions (the setters of the drag and modal
      state are left out);
    - the entity types ([Board], [List], [Card], [AppState]);
    - [handleDragEnd] of [src/components/Board.tsx].
    [generateId()] and [new Date()] are inputs of the actions that call
    them.

    Conventions of the embedding.
    - JavaScript numbers that hold lengths, indices and positions are [Z].
    - A JavaScript object used as a dictionary is a [gmap string _].  A key
      of an in-memory dictionary may be bound to [undefined] (the store
      writes [[id]: undefined]); such a binding is [Some None].  A [gmap]
      holds own properties only: a lookup is the one of the program for a
      key that the object owns or that is plain ([plain_key]: no name of a
      property inherited from [Object.prototype]), and the properties
      assume plain keys wherever the code looks an id up.
    - The text under a [localStorage] key is missing, unparseable, or a
      document of the shape the program writes there.
    - The text kept in [localStorage] is represented by the JSON tree it
      denotes, so [JSON.parse (JSON.stringify v)] is the tree obtained from
      [v] by replacing every [Date] by what [Date.prototype.toJSON] returns.
    - The ISO-8601 text of an instant is represented by that instant
      ([TsIso t]); [new Date] of that text is the [Date] of the same instant.
    - Every store action is run to completion before the next one is issued.
      Inside one action the suspension points of [async] functions are kept:
      an [async] function runs up to its first [await] when it is called and
      the rest when its promise is awaited. *)

From Stdlib Require Import ZArith Lia.
From stdpp Require Import base option list strings gmap fin_maps sorting.

Local Open Scope string_scope.
Local Open Scope Z_scope.
Local Open Scope list_scope.

(** ** JavaScript values held by the timestamp fields *)

(** What a [createdAt] / [updatedAt] property can hold at run time. *)
Inductive tsval : Type :=
  | TsDate (t : option Z)  (** a [Date]; [None] is the Invalid Date *)
  | TsIso (t : Z)          (** a string: the ISO-8601 text of instant [t] *)
  | TsNull                 (** [null] *)
  | TsUndef.               (** [undefined], or the property is missing *)

(** [new Date(v)] *)
Definition new_Date (v : tsval) : tsval :=
  match v with
  | TsDate t => TsDate t
  | TsIso t => TsDate (Some t)
  | TsNull => TsDate (Some 0)
  | TsUndef => TsDate None
  end.

(** Truthiness of [v] in a condition. *)
Definition truthy (v : tsval) : bool :=
  match v with
  | TsDate _ | TsIso _ => true
  | TsNull | TsUndef => false
  end.

(** What [JSON.stringify] followed by [JSON.parse] leaves of a property:
    a valid [Date] becomes its ISO text, the Invalid Date becomes [null]. *)
Definition ts_toJSON (v : tsval) : tsval :=
  match v with
  | TsDate (Some t) => TsIso t
  | TsDate None => TsNull
  | other => other
  end.

Definition is_Date (v : tsval) : Prop :=
  match v with TsDate _ => True | _ => False end.

(** ** Entities (the [types] module) *)

Record Board : Type := mkBoard {
  board_id : string;
  board_title : string;
  board_description : string;
  board_createdAt : tsval;
  board_updatedAt : tsval;
  board_color : string
}.

Record List : Type := mkList {
  list_id : string;
  list_title : string;
  list_boardId : string;
  list_position : Z;
  list_createdAt : tsval
}.

Record Card : Type := mkCard {
  card_id : string;
  card_title : string;
  card_description : string;
  card_listId : string;
  card_position : Z;
  card_createdAt : tsval;
  card_updatedAt : tsval
}.

Record LoadingState : Type := mkLoading {
  loading_boards : bool;
  loading_saving : bool;
  loading_error : option string
}.

(** [AppState] without [dragState] and [modal], which no action below reads
    or writes. *)
Record AppState : Type := mkAppState {
  boards : list Board;
  lists : gmap string (option (list List));
  cards : gmap string (option (list Card));
  currentBoard : option string;
  loading : LoadingState
}.

Record CreateBoardData : Type := mkCreateBoardData {
  cbd_title : string; cbd_description : string; cbd_color : string
}.
Record CreateListData : Type := mkCreateListData {
  cld_title : string; cld_boardId : string
}.
Record CreateCardData : Type := mkCreateCardData {
  ccd_title : string; ccd_description : string; ccd_listId : string
}.

(** Functional record updates ([{ ...x, field: v }]). *)
Definition with_card_position (p : Z) (c : Card) : Card :=
  mkCard (card_id c) (card_title c) (card_description c) (card_listId c) p
         (card_createdAt c) (card_updatedAt c).
Definition with_list_position (p : Z) (l : List) : List :=
  mkList (list_id l) (list_title l) (list_boardId l) p (list_createdAt l).
Definition with_boards (v : list Board) (s : AppState) : AppState :=
  mkAppState v (lists s) (cards s) (currentBoard s) (loading s).
Definition with_lists (v : gmap string (option (list List))) (s : AppState) : AppState :=
  mkAppState (boards s) v (cards s) (currentBoard s) (loading s).
Definition with_cards (v : gmap string (option (list Card))) (s : AppState) : AppState :=
  mkAppState (boards s) (lists s) v (currentBoard s) (loading s).
Definition with_currentBoard (v : option string) (s : AppState) : AppState :=
  mkAppState (boards s) (lists s) (cards s) v (loading s).
Definition with_loading (v : LoadingState) (s : AppState) : AppState :=
  mkAppState (boards s) (lists s) (cards s) (currentBoard s) v.
Definition with_loading_boards (b : bool) (l : LoadingState) : LoadingState :=
  mkLoading b (loading_saving l) (loading_error l).
Definition with_saving (b : bool) (l : LoadingState) : LoadingState :=
  mkLoading (loading_boards l) b (loading_error l).
Definition with_error (e : option string) (l : LoadingState) : LoadingState :=
  mkLoading (loading_boards l) (loading_saving l) e.

(** ** Array and dictionary helpers *)

(** The property names that every object inherits from [Object.prototype].
    For such a name [k] that an object [dict] does not own, [dict[k]] is
    not [undefined] but the inherited value (a function, or the prototype
    itself), on which [find], [filter], [findIndex], [forEach] and the
    spread are a [TypeError]; and [dict['__proto__'] = v] sets the prototype
    of [dict] instead of a property.  The dictionaries of this development
    hold own properties only: they are the objects of the program for the
    keys that are plain, and the properties below assume that of every id
    that the code uses as a key. *)
Definition prototypeKeys : list string :=
  ["constructor"; "__proto__"; "hasOwnProperty"; "isPrototypeOf";
   "propertyIsEnumerable"; "toLocaleString"; "toString"; "valueOf";
   "__defineGetter__"; "__defineSetter__"; "__lookupGetter__"; "__lookupSetter__"].

Definition plain_key (k : string) : Prop := k ∉ prototypeKeys.

#[global] Instance plain_key_dec k : Decision (plain_key k).
Proof. unfold plain_key. apply _. Defined.

(** [dict[k] || []] on an in-memory dictionary, for a key that [dict] owns
    or that is plain. *)
Definition or_empty {A} (v : option (option (list A))) : list A :=
  match v with
  | Some (Some l) => l
  | _ => []
  end.

(** [arr.findIndex(p)]: the first index whose element satisfies [p], or -1. *)
Definition findIndex {A} (P : A -> Prop) `{!forall x, Decision (P x)} (l : list A) : Z :=
  match list_find P l with
  | Some (i, _) => Z.of_nat i
  | None => -1
  end.

(** [arr.find(p)] *)
Definition find_ {A} (P : A -> Prop) `{!forall x, Decision (P x)} (l : list A) : option A :=
  snd <$> list_find P l.

(** The index at which [arr.splice(start, 0, x)] inserts in an array of
    length [len]: a negative [start] counts from the end, and the result is
    clamped to [0 .. len]. *)
Definition splice_start (len : nat) (start : Z) : nat :=
  if start <? 0 then Z.to_nat (Z.max (Z.of_nat len + start) 0)
  else Z.to_nat (Z.min start (Z.of_nat len)).

(** [arr.splice(start, 0, x)] *)
Definition splice_insert {A} (start : Z) (x : A) (l : list A) : list A :=
  let i := splice_start (length l) start in
  take i l ++ x :: drop i l.

(** [arr[i] = x] for an index [i] that [findIndex] returned and is [>= 0]. *)
Definition assign_at {A} (i : Z) (x : A) (l : list A) : list A :=
  <[Z.to_nat i := x]> l.

(** The idiom shared by [saveBoard], [saveList] and [saveCard]:
    [const existingIndex = arr.findIndex(y => y.id === x.id);
     if (existingIndex >= 0) { arr[existingIndex] = x; } else { arr.push(x); }] *)
Definition upsert {A} (id : A -> string) (x : A) (arr : list A) : list A :=
  let existingIndex := findIndex (fun y => id y = id x) arr in
  if 0 <=? existingIndex then assign_at existingIndex x arr
  else arr ++ [x].

(** [arr.map((x, index) => ({ ...x, position: index }))] *)
Definition renumberCards (l : list Card) : list Card :=
  imap (fun index card => with_card_position (Z.of_nat index) card) l.
Definition renumberLists (l : list List) : list List :=
  imap (fun index list => with_list_position (Z.of_nat index) list) l.

(** ** Exceptions, promises and the state monad *)

(** A thrown value: an [Error] with its [message], or something that is not
    an instance of [Error]. *)
Inductive exn : Type :=
  | Error (message : string)
  | NonError.

Inductive outcome (A : Type) : Type :=
  | Resolved (a : A)
  | Rejected (e : exn).
Arguments Resolved {A} a.
Arguments Rejected {A} e.

(** Computations over a state [S] that return normally or throw. *)
Definition M (S A : Type) : Type := S -> S * outcome A.

#[global] Instance M_ret {S} : MRet (M S) :=
  fun A a s => (s, Resolved a).
#[global] Instance M_bind {S} : MBind (M S) :=
  fun A B f m s =>
    match m s with
    | (s', Resolved a) => f a s'
    | (s', Rejected e) => (s', Rejected e)
    end.

Definition throw {S A} (e : exn) : M S A := fun s => (s, Rejected e).

(** [try { body } catch (error) { handler }] *)
Definition try_catch {S A} (body : M S A) (handler : exn -> M S A) : M S A :=
  fun s =>
    match body s with
    | (s', Resolved a) => (s', Resolved a)
    | (s', Rejected e) => handler e s'
    end.

Definition get_state {S} : M S S := fun s => (s, Resolved s).
Definition modify {S} (f : S -> S) : M S unit := fun s => (f s, Resolved tt).

(** A pending promise is the rest of the computation that settles it; a call
    of an [async] function runs the body up to its first [await] and returns
    the promise of the rest.  An exception in that first part rejects the
    promise. *)
Definition promise (S A : Type) : Type := M S A.
Definition async (S A : Type) : Type := M S (promise S A).

Definition async_fn {S A B} (first : M S B) (rest : B -> M S A) : async S A :=
  fun s =>
    match first s with
    | (s', Resolved b) => (s', Resolved (rest b))
    | (s', Rejected e) => (s', Resolved (throw e))
    end.

(** [await p] *)
Definition await {S A} (p : promise S A) : M S A := p.

(** [await Promise.all([p1, p2])]: both continuations run, in the order in
    which the promises were created; the first rejection is the result. *)
Definition await_all2 {S A B} (p1 : promise S A) (p2 : promise S B) : M S (A * B) :=
  fun s =>
    let '(s1, o1) := p1 s in
    let '(s2, o2) := p2 s1 in
    (s2, match o1, o2 with
         | Resolved a, Resolved b => Resolved (a, b)
         | Rejected e, _ => Rejected e
         | _, Rejected e => Rejected e
         end).

(** [await f(...)]: an [async] function called and awaited at once. *)
Definition settle {S A} (call : async S A) : M S A :=
  p ← call; await p.

(** ** The browser's [localStorage] and console *)

(** How [localStorage] answers a [setItem].
    - [Working]: every [setItem] succeeds.
    - [Unavailable]: every [setItem] throws, the one of the availability
      probe included (storage disabled, or no room left even for the probe).
    - [QuotaExceeded]: the probe is accepted, a payload is refused. *)
Inductive ls_mode : Type :=
  | Working
  | Unavailable
  | QuotaExceeded.

(** The text under a key: none (or empty), text that [JSON.parse] rejects,
    or the text of a JSON document of the shape that the program writes
    under that key (an array of boards, an object of arrays of lists or of
    cards).  Text that parses to something else is not represented. *)
Inductive item (T : Type) : Type :=
  | NoItem
  | BadText
  | Text (doc : T).
Arguments NoItem {T}.
Arguments BadText {T}.
Arguments Text {T} doc.

Record LocalStorage : Type := mkLocalStorage {
  ls_state : ls_mode;
  trello_boards : item (list Board);
  trello_lists : item (gmap string (list List));
  trello_cards : item (gmap string (list Card))
}.

Record Env : Type := mkEnv {
  disk : LocalStorage;
  console : list string
}.

(** [STORAGE_KEYS], each with the type of the document kept under it. *)
Inductive storage_key : Type -> Type :=
  | BOARDS : storage_key (list Board)
  | LISTS : storage_key (gmap string (list List))
  | CARDS : storage_key (gmap string (list Card)).

Definition key_name {T} (k : storage_key T) : string :=
  match k with
  | BOARDS => "trello_boards"
  | LISTS => "trello_lists"
  | CARDS => "trello_cards"
  end.

Definition read_item {T} (k : storage_key T) (ls : LocalStorage) : item T :=
  match k in storage_key T return item T with
  | BOARDS => trello_boards ls
  | LISTS => trello_lists ls
  | CARDS => trello_cards ls
  end.

Definition write_item {T} (k : storage_key T) (v : item T) (ls : LocalStorage) : LocalStorage :=
  match k in storage_key T return item T -> LocalStorage with
  | BOARDS => fun v => mkLocalStorage (ls_state ls) v (trello_lists ls) (trello_cards ls)
  | LISTS => fun v => mkLocalStorage (ls_state ls) (trello_boards ls) v (trello_cards ls)
  | CARDS => fun v => mkLocalStorage (ls_state ls) (trello_boards ls) (trello_lists ls) v
  end v.

Definition board_toJSON (b : Board) : Board :=
  mkBoard (board_id b) (board_title b) (board_description b)
          (ts_toJSON (board_createdAt b)) (ts_toJSON (board_updatedAt b)) (board_color b).
Definition list_toJSON (l : List) : List :=
  mkList (list_id l) (list_title l) (list_boardId l) (list_position l)
         (ts_toJSON (list_createdAt l)).
Definition card_toJSON (c : Card) : Card :=
  mkCard (card_id c) (card_title c) (card_description c) (card_listId c) (card_position c)
         (ts_toJSON (card_createdAt c)) (ts_toJSON (card_updatedAt c)).

Definition boards_toJSON (data : list Board) : list Board :=
  board_toJSON <$> data.
Definition lists_toJSON (data : gmap string (list List)) : gmap string (list List) :=
  fmap (M := list) list_toJSON <$> data.
Definition cards_toJSON (data : gmap string (list Card)) : gmap string (list Card) :=
  fmap (M := list) card_toJSON <$> data.

(** [JSON.stringify(data)], as the JSON tree of the text. *)
Definition JSON_stringify {T} (k : storage_key T) : T -> T :=
  match k in storage_key T return T -> T with
  | BOARDS => boards_toJSON
  | LISTS => lists_toJSON
  | CARDS => cards_toJSON
  end.

(** [{ ...item, createdAt: new Date(item.createdAt),
       updatedAt: item.updatedAt ? new Date(item.updatedAt) : undefined }] *)
Definition revive_board (b : Board) : Board :=
  mkBoard (board_id b) (board_title b) (board_description b)
          (new_Date (board_createdAt b))
          (if truthy (board_updatedAt b) then new_Date (board_updatedAt b) else TsUndef)
          (board_color b).

(** The branch [if (Array.isArray(parsed))] of [getData]: the boards
    document is an array, the lists and cards documents are objects keyed by
    the parent id and are returned as parsed. *)
Definition revive_dates {T} (k : storage_key T) : T -> T :=
  match k in storage_key T return T -> T with
  | BOARDS => fmap (M := list) revive_board
  | LISTS => fun parsed => parsed
  | CARDS => fun parsed => parsed
  end.

(** [console.warn(msg)] and [console.error(msg, error)]: the console keeps
    the text of the first argument; the error object that [console.error]
    is given after it is not recorded. *)
Definition console_log (msg : string) : M Env unit :=
  modify (fun e => mkEnv (disk e) (console e ++ [msg])).

(** [localStorage.setItem(testKey, 'test'); localStorage.removeItem(testKey)] *)
Definition localStorage_probe : M Env unit :=
  fun e =>
    match ls_state (disk e) with
    | Unavailable => (e, Rejected (Error "QuotaExceededError"))
    | _ => (e, Resolved tt)
    end.

(** [localStorage.getItem(key)] *)
Definition localStorage_getItem {T} (k : storage_key T) : M Env (item T) :=
  fun e => (e, Resolved (read_item k (disk e))).

(** [localStorage.setItem(key, text)] *)
Definition localStorage_setItem {T} (k : storage_key T) (doc : T) : M Env unit :=
  fun e =>
    match ls_state (disk e) with
    | Working => (mkEnv (write_item k (Text doc) (disk e)) (console e), Resolved tt)
    | _ => (e, Rejected (Error "QuotaExceededError"))
    end.

(** [localStorage.removeItem(key)] *)
Definition localStorage_removeItem {T} (k : storage_key T) : M Env unit :=
  modify (fun e => mkEnv (write_item k NoItem (disk e)) (console e)).

(** [JSON.parse(item)] for an item that passed [if (!item)]. *)
Definition JSON_parse {T} (it : item T) : M Env T :=
  match it with
  | Text doc => mret doc
  | _ => throw (Error "SyntaxError")
  end.

(** ** [StorageService] (src/services/storage.ts) *)

Module StorageService.

Definition isStorageAvailable : M Env bool :=
  try_catch (localStorage_probe;; mret true) (fun _ => mret false).

Definition getData {T} (key : storage_key T) (defaultValue : T) : M Env T :=
  available ← isStorageAvailable;
  if negb available then
    console_log "LocalStorage is not available";; mret defaultValue
  else
    try_catch
      (item ← localStorage_getItem key;
       match item with
       | NoItem => mret defaultValue
       | _ =>
           parsed ← JSON_parse item;
           mret (revive_dates key parsed)
       end)
      (fun error =>
         console_log ("Error reading from localStorage for key " +:+ key_name key +:+ ":");;
         mret defaultValue).

Definition setData {T} (key : storage_key T) (data : T) : M Env unit :=
  available ← isStorageAvailable;
  if negb available then
    console_log "LocalStorage is not available"
  else
    try_catch
      (localStorage_setItem key (JSON_stringify key data))
      (fun error =>
         console_log ("Error writing to localStorage for key " +:+ key_name key +:+ ":")).

(** [dict[k] || []] on a parsed document, for a key that the document owns
    or that is plain. *)
Definition at_key {A} (dict : gmap string (list A)) (k : string) : list A :=
  default [] (dict !! k).

Definition loadBoards : async Env (list Board) :=
  async_fn (getData BOARDS []) mret.

Definition saveBoard (board : Board) : async Env unit :=
  async_fn loadBoards (fun p =>
    boards ← await p;
    let boards := upsert board_id board boards in
    setData BOARDS boards).

Definition loadLists : async Env (gmap string (list List)) :=
  async_fn (getData LISTS ∅) mret.

Definition loadCards : async Env (gmap string (list Card)) :=
  async_fn (getData CARDS ∅) mret.

Definition deleteBoardData (boardId : string) : async Env unit :=
  async_fn loadLists (fun p =>
    listsData ← await p;
    p' ← loadCards;
    cardsData ← await p';
    let listsData := delete boardId listsData in
    setData LISTS listsData;;
    let boardLists := at_key listsData boardId in
    let cardsData := foldl (fun data list => delete (list_id list) data) cardsData boardLists in
    setData CARDS cardsData).

Definition deleteBoard (boardId : string) : async Env unit :=
  async_fn loadBoards (fun p =>
    boards ← await p;
    let filteredBoards := filter (fun b => board_id b ≠ boardId) boards in
    setData BOARDS filteredBoards;;
    p' ← deleteBoardData boardId;
    await p').

Definition saveList (list : List) : async Env unit :=
  async_fn loadLists (fun p =>
    listsData ← await p;
    let boardLists := at_key listsData (list_boardId list) in
    let boardLists := upsert list_id list boardLists in
    setData LISTS (<[list_boardId list := boardLists]> listsData)).

Definition deleteListCards (listId : string) : async Env unit :=
  async_fn loadCards (fun p =>
    cardsData ← await p;
    setData CARDS (delete listId cardsData)).

Definition deleteList (listId boardId : string) : async Env unit :=
  async_fn loadLists (fun p =>
    listsData ← await p;
    let boardLists := at_key listsData boardId in
    let filteredLists := filter (fun l => list_id l ≠ listId) boardLists in
    let listsData :=
      if decide (length filteredLists = 0%nat) then delete boardId listsData
      else <[boardId := filteredLists]> listsData in
    setData LISTS listsData;;
    p' ← deleteListCards listId;
    await p').

Definition saveCard (card : Card) : async Env unit :=
  async_fn loadCards (fun p =>
    cardsData ← await p;
    let listCards := at_key cardsData (card_listId card) in
    let listCards := upsert card_id card listCards in
    setData CARDS (<[card_listId card := listCards]> cardsData)).

Definition deleteCard (cardId listId : string) : async Env unit :=
  async_fn loadCards (fun p =>
    cardsData ← await p;
    let listCards := at_key cardsData listId in
    let filteredCards := filter (fun c => card_id c ≠ cardId) listCards in
    let cardsData :=
      if decide (length filteredCards = 0%nat) then delete listId cardsData
      else <[listId := filteredCards]> cardsData in
    setData CARDS cardsData).

Definition updateListPositions (boardId : string) (lists : list List) : async Env unit :=
  async_fn loadLists (fun p =>
    listsData ← await p;
    setData LISTS (<[boardId := lists]> listsData)).

Definition updateCardPositions (listId : string) (cards : list Card) : async Env unit :=
  async_fn loadCards (fun p =>
    cardsData ← await p;
    setData CARDS (<[listId := cards]> cardsData)).

Definition clearAllData : async Env unit :=
  async_fn
    (available ← isStorageAvailable;
     if negb available then mret tt
     else
       localStorage_removeItem BOARDS;;
       localStorage_removeItem LISTS;;
       localStorage_removeItem CARDS)
    mret.

End StorageService.

(** ** The [utils] module *)

Module Utils.

(** Modelled from the spec: [reorder] of the [utils] module, which the store
    imports and which is not among the sources.  "Removes the element at
    [fromIndex] and reinserts it at [toIndex] (clamped to [[0, length-1]]),
    preserving all other relative orderings."  The spec says nothing about a
    [fromIndex] outside the sequence; the sequence is then returned as it
    is, which keeps the stated contract that the length does not change. *)
Definition reorder {A} (sequence : list A) (fromIndex toIndex : Z) : list A :=
  match (if fromIndex <? 0 then None else sequence !! Z.to_nat fromIndex) with
  | Some removed =>
      let rest := delete (Z.to_nat fromIndex) sequence in
      let to := Z.to_nat (Z.max 0 (Z.min toIndex (Z.of_nat (length sequence) - 1))) in
      take to rest ++ removed :: drop to rest
  | None => sequence
  end.

End Utils.

(** ** The persistence operations the store calls *)

Module Service.

(** The static methods of [StorageService] that the store uses.  The store
    actions below are written against this interface; [StorageService.adapter]
    is the implementation the application runs with. *)
Class Adapter : Type := {
  loadBoards : async Env (list Board);
  saveBoard : Board -> async Env unit;
  deleteBoard : string -> async Env unit;
  loadLists : async Env (gmap string (list List));
  saveList : List -> async Env unit;
  deleteList : string -> string -> async Env unit;
  loadCards : async Env (gmap string (list Card));
  saveCard : Card -> async Env unit;
  deleteCard : string -> string -> async Env unit;
  updateListPositions : string -> list List -> async Env unit;
  updateCardPositions : string -> list Card -> async Env unit
}.

End Service.

Definition StorageService_adapter : Service.Adapter := {|
  Service.loadBoards := StorageService.loadBoards;
  Service.saveBoard := StorageService.saveBoard;
  Service.deleteBoard := StorageService.deleteBoard;
  Service.loadLists := StorageService.loadLists;
  Service.saveList := StorageService.saveList;
  Service.deleteList := StorageService.deleteList;
  Service.loadCards := StorageService.loadCards;
  Service.saveCard := StorageService.saveCard;
  Service.deleteCard := StorageService.deleteCard;
  Service.updateListPositions := StorageService.updateListPositions;
  Service.updateCardPositions := StorageService.updateCardPositions
|}.

(** ** The store ([useAppStore]) *)

Record World : Type := mkWorld {
  mem : AppState;
  env : Env
}.

Definition initialState : AppState :=
  mkAppState [] ∅ ∅ None (mkLoading false false None).

(** [error instanceof Error ? error.message : fallback] *)
Definition message_or (error : exn) (fallback : string) : string :=
  match error with
  | Error message => message
  | NonError => fallback
  end.

Module Store.

(** zustand's [get()] and [set(state => ...)]. *)
Definition getState : M World AppState := fun w => (w, Resolved (mem w)).
Definition setState (f : AppState -> AppState) : M World unit :=
  modify (fun w => mkWorld (f (mem w)) (env w)).

Definition liftEnv {A} (c : M Env A) : M World A :=
  fun w => let '(e, o) := c (env w) in (mkWorld (mem w) e, o).

(** Calling a method of the service: its first part runs now, the promise
    of the rest is returned. *)
Definition call {A} (method : async Env A) : M World (promise World A) :=
  p ← liftEnv method; mret (liftEnv p).

(** [set({ loading: { ...get().loading, saving: true, error: null } })] *)
Definition startSaving : M World unit :=
  setState (fun s => with_loading (with_error None (with_saving true (loading s))) s).

(** [set({ loading: { ...get().loading, saving: false, error: ... } })] *)
Definition failSaving (error : exn) (fallback : string) : M World unit :=
  setState (fun s =>
    with_loading (with_error (Some (message_or error fallback))
                             (with_saving false (loading s))) s).

(** [set({ loading: { ...get().loading, error: ... } })] *)
Definition failWith (error : exn) (fallback : string) : M World unit :=
  setState (fun s =>
    with_loading (with_error (Some (message_or error fallback)) (loading s)) s).

Definition doneSaving (s : AppState) : AppState :=
  with_loading (with_saving false (loading s)) s.

(** [{ ...data, id: generateId(), position: listCards.length,
       createdAt: new Date(), updatedAt: new Date() }] *)
Definition newCard (data : CreateCardData) (newId : string) (listCards : list Card)
    (createdNow updatedNow : Z) : Card :=
  mkCard newId (ccd_title data) (ccd_description data) (ccd_listId data)
         (Z.of_nat (length listCards))
         (TsDate (Some createdNow)) (TsDate (Some updatedNow)).

Section Actions.
Context {service : Service.Adapter}.

(** *** Board actions *)

Definition loadBoards : M World unit :=
  setState (fun s =>
    with_loading (with_error None (with_loading_boards true (loading s))) s);;
  try_catch
    (p ← call Service.loadBoards;
     boards ← await p;
     setState (fun s =>
       with_loading (with_loading_boards false (loading s)) (with_boards boards s)))
    (fun error =>
       setState (fun s =>
         with_loading (with_error (Some (message_or error "Failed to load boards"))
                                  (with_loading_boards false (loading s))) s)).

(** [newId] is what [generateId()] returns, [createdNow] and [updatedNow]
    the instants of the two [new Date()]. *)
Definition createBoard (data : CreateBoardData) (newId : string)
    (createdNow updatedNow : Z) : M World unit :=
  startSaving;;
  try_catch
    (let board :=
       mkBoard newId (cbd_title data) (cbd_description data)
               (TsDate (Some createdNow)) (TsDate (Some updatedNow)) (cbd_color data) in
     p ← call (Service.saveBoard board);
     await p;;
     setState (fun state => doneSaving (with_boards (boards state ++ [board]) state)))
    (fun error => failSaving error "Failed to create board").

Definition deleteBoard (id : string) : M World unit :=
  startSaving;;
  try_catch
    (p ← call (Service.deleteBoard id);
     await p;;
     setState (fun state =>
       doneSaving
         (with_currentBoard
            (if decide (currentBoard state = Some id) then None else currentBoard state)
            (with_lists (<[id := None]> (lists state))
               (with_boards (filter (fun b => board_id b ≠ id) (boards state)) state)))))
    (fun error => failSaving error "Failed to delete board").

Definition setCurrentBoard (boardId : option string) : M World unit :=
  setState (with_currentBoard boardId).

(** *** List actions *)

Definition loadLists (boardId : string) : M World unit :=
  try_catch
    (p ← call Service.loadLists;
     allLists ← await p;
     let boardLists := StorageService.at_key allLists boardId in
     setState (fun state => with_lists (<[boardId := Some boardLists]> (lists state)) state))
    (fun error => failWith error "Failed to load lists").

Definition createList (data : CreateListData) (newId : string) (now : Z) : M World unit :=
  startSaving;;
  try_catch
    (state ← getState;
     let boardLists := or_empty (lists state !! cld_boardId data) in
     let list :=
       mkList newId (cld_title data) (cld_boardId data)
              (Z.of_nat (length boardLists)) (TsDate (Some now)) in
     p ← call (Service.saveList list);
     await p;;
     setState (fun state =>
       doneSaving
         (with_lists
            (<[cld_boardId data := Some (or_empty (lists state !! cld_boardId data) ++ [list])]>
               (lists state)) state)))
    (fun error => failSaving error "Failed to create list").

Definition deleteList (id boardId : string) : M World unit :=
  startSaving;;
  try_catch
    (p ← call (Service.deleteList id boardId);
     await p;;
     setState (fun state =>
       doneSaving
         (with_cards (<[id := None]> (cards state))
            (with_lists
               (<[boardId := Some (filter (fun l => list_id l ≠ id)
                                          (or_empty (lists state !! boardId)))]>
                  (lists state)) state))))
    (fun error => failSaving error "Failed to delete list").

Definition reorderLists (boardId : string) (startIndex endIndex : Z) : M World unit :=
  try_catch
    (state ← getState;
     let lists_ := or_empty (lists state !! boardId) in
     let reorderedLists := Utils.reorder lists_ startIndex endIndex in
     let updatedLists := renumberLists reorderedLists in
     p ← call (Service.updateListPositions boardId updatedLists);
     await p;;
     setState (fun state => with_lists (<[boardId := Some updatedLists]> (lists state)) state))
    (fun error => failWith error "Failed to reorder lists").

(** *** Card actions *)

Definition loadCards (listId : string) : M World unit :=
  try_catch
    (p ← call Service.loadCards;
     allCards ← await p;
     let listCards := StorageService.at_key allCards listId in
     setState (fun state => with_cards (<[listId := Some listCards]> (cards state)) state))
    (fun error => failWith error "Failed to load cards").

Definition createCard (data : CreateCardData) (newId : string)
    (createdNow updatedNow : Z) : M World unit :=
  startSaving;;
  try_catch
    (state ← getState;
     let listCards := or_empty (cards state !! ccd_listId data) in
     let card := newCard data newId listCards createdNow updatedNow in
     p ← call (Service.saveCard card);
     await p;;
     setState (fun state =>
       doneSaving
         (with_cards
            (<[ccd_listId data := Some (or_empty (cards state !! ccd_listId data) ++ [card])]>
               (cards state)) state)))
    (fun error => failSaving error "Failed to create card").

Definition deleteCard (id listId : string) : M World unit :=
  startSaving;;
  try_catch
    (p ← call (Service.deleteCard id listId);
     await p;;
     setState (fun state =>
       doneSaving
         (with_cards
            (<[listId := Some (filter (fun c => card_id c ≠ id)
                                      (or_empty (cards state !! listId)))]>
               (cards state)) state)))
    (fun error => failSaving error "Failed to delete card").

(** [{ ...cardToMove, listId: destListId, updatedAt: new Date() }] *)
Definition movedCard (cardToMove : Card) (destListId : string) (now : Z) : Card :=
  mkCard (card_id cardToMove) (card_title cardToMove) (card_description cardToMove)
         destListId (card_position cardToMove) (card_createdAt cardToMove)
         (TsDate (Some now)).

Definition moveCard (cardId sourceListId destListId : string) (destIndex : Z)
    (now : Z) : M World unit :=
  try_catch
    (state ← getState;
     let sourceCards := or_empty (cards state !! sourceListId) in
     let destCards := or_empty (cards state !! destListId) in
     match find_ (fun c => card_id c = cardId) sourceCards with
     | None => throw (Error "Card not found")
     | Some cardToMove =>
         let newSourceCards := filter (fun c => card_id c ≠ cardId) sourceCards in
         let updatedCard := movedCard cardToMove destListId now in
         let newDestCards := splice_insert destIndex updatedCard destCards in
         let updatedSourceCards := renumberCards newSourceCards in
         let updatedDestCards := renumberCards newDestCards in
         p1 ← call (Service.updateCardPositions sourceListId updatedSourceCards);
         p2 ← call (Service.updateCardPositions destListId updatedDestCards);
         await_all2 p1 p2;;
         setState (fun state =>
           with_cards
             (<[destListId := Some updatedDestCards]>
                (<[sourceListId := Some updatedSourceCards]> (cards state))) state)
     end)
    (fun error => failWith error "Failed to move card").

Definition reorderCards (listId : string) (startIndex endIndex : Z) : M World unit :=
  try_catch
    (state ← getState;
     let cards_ := or_empty (cards state !! listId) in
     let reorderedCards := Utils.reorder cards_ startIndex endIndex in
     let updatedCards := renumberCards reorderedCards in
     p ← call (Service.updateCardPositions listId updatedCards);
     await p;;
     setState (fun state => with_cards (<[listId := Some updatedCards]> (cards state)) state))
    (fun error => failWith error "Failed to reorder cards").

End Actions.

(** The world an action leaves behind. *)
Definition run {A} (action : M World A) (w : World) : World := fst (action w).

End Store.

(** ** The drag-end handler of the board view (src/components/Board.tsx) *)

Module BoardView.

(** What the handler reads of [active] and [over]: [id],
    [data.current?.type] and [data.current?.listId]. *)
Record Draggable : Type := mkDraggable {
  dnd_id : string;
  dnd_type : option string;
  dnd_listId : option string
}.

Record DragEndEvent : Type := mkDragEndEvent {
  active : Draggable;
  over : option Draggable
}.

(** [v || fallback] for a string that may be undefined or empty. *)
Definition or_else (v : option string) (fallback : string) : string :=
  match v with
  | Some s => if decide (s = "") then fallback else s
  | None => fallback
  end.

(** The property key an [undefined] list id turns into. *)
Definition as_key (v : option string) : string := default "undefined" v.

(** [[...boardLists].sort((a, b) => a.position - b.position)]: a stable
    sort by ascending position. *)
Fixpoint insertByPosition (x : List) (sorted : list List) : list List :=
  match sorted with
  | [] => [x]
  | y :: rest =>
      if list_position y <=? list_position x then y :: insertByPosition x rest
      else x :: sorted
  end.
Definition sortByPosition (l : list List) : list List :=
  foldl (fun sorted x => insertByPosition x sorted) [] l.

Section Handler.
Context {service : Service.Adapter}.

(** [boardId] is the route parameter; the store values of the last render
    are those of the current state.  [now] is the instant of the
    [new Date()] inside [moveCard]. *)
Definition handleDragEnd (boardId : string) (event : DragEndEvent) (now : Z) : M World unit :=
  state ← Store.getState;
  match over event with
  | None => mret tt
  | Some over =>
      let active := active event in
      if decide (dnd_id active = dnd_id over) then mret tt
      else if decide (dnd_type active = Some "list") then
        let sortedLists := sortByPosition (or_empty (lists state !! boardId)) in
        let oldIndex := findIndex (fun list => list_id list = dnd_id active) sortedLists in
        let newIndex := findIndex (fun list => list_id list = dnd_id over) sortedLists in
        if decide (oldIndex ≠ newIndex) then Store.reorderLists boardId oldIndex newIndex
        else mret tt
      else if decide (dnd_type active = Some "card") then
        let activeListId := dnd_listId active in
        let overListId := or_else (dnd_listId over) (dnd_id over) in
        if decide (activeListId = Some overListId) then
          let listCards := or_empty (cards state !! overListId) in
          let oldIndex := findIndex (fun card => card_id card = dnd_id active) listCards in
          let newIndex := findIndex (fun card => card_id card = dnd_id over) listCards in
          if decide (oldIndex ≠ newIndex) then Store.reorderCards overListId oldIndex newIndex
          else mret tt
        else
          let destCards := or_empty (cards state !! overListId) in
          let destIndex :=
            if decide (dnd_type over = Some "card")
            then findIndex (fun card => card_id card = dnd_id over) destCards
            else Z.of_nat (length destCards) in
          Store.moveCard (dnd_id active) (as_key activeListId) overListId destIndex now
      else mret tt
  end.

End Handler.
End BoardView.

(** ** Scenario data *)

Definition emptyStorage (mode : ls_mode) : LocalStorage :=
  mkLocalStorage mode NoItem NoItem NoItem.

Definition freshWorld (mode : ls_mode) : World :=
  mkWorld initialState (mkEnv (emptyStorage mode) []).

(** The positions of a collection, in sequence order. *)
Definition cardPositions (l : list Card) : list Z := card_position <$> l.
Definition listPositions (l : list List) : list Z := list_position <$> l.

(** Positions are dense: exactly [0 .. n-1], in sequence order. *)
Definition dense (positions : list Z) : Prop :=
  positions = Z.of_nat <$> seq 0 (length positions).

(** The positions as a set are [0 .. n-1] without gaps or duplicates. *)
Definition dense_set (positions : list Z) : Prop :=
  NoDup positions /\
  forall p, p ∈ positions <-> 0 <= p < Z.of_nat (length positions).

(** ** Vocabulary of the properties *)

(** The calls a client can make on [StorageService], each with the type of
    the value its promise resolves with. *)
Inductive request : Type -> Type :=
  | LoadBoards : request (list Board)
  | SaveBoard (board : Board) : request unit
  | DeleteBoard (boardId : string) : request unit
  | LoadLists : request (gmap string (list List))
  | SaveList (list : List) : request unit
  | DeleteList (listId boardId : string) : request unit
  | LoadCards : request (gmap string (list Card))
  | SaveCard (card : Card) : request unit
  | DeleteCard (cardId listId : string) : request unit
  | UpdateListPositions (boardId : string) (lists : list List) : request unit
  | UpdateCardPositions (listId : string) (cards : list Card) : request unit
  | ClearAllData : request unit.

Definition perform {T} (r : request T) : async Env T :=
  match r in request T return async Env T with
  | LoadBoards => StorageService.loadBoards
  | SaveBoard board => StorageService.saveBoard board
  | DeleteBoard boardId => StorageService.deleteBoard boardId
  | LoadLists => StorageService.loadLists
  | SaveList list => StorageService.saveList list
  | DeleteList listId boardId => StorageService.deleteList listId boardId
  | LoadCards => StorageService.loadCards
  | SaveCard card => StorageService.saveCard card
  | DeleteCard cardId listId => StorageService.deleteCard cardId listId
  | UpdateListPositions boardId lists => StorageService.updateListPositions boardId lists
  | UpdateCardPositions listId cards => StorageService.updateCardPositions listId cards
  | ClearAllData => StorageService.clearAllData
  end.

(** The default a read passes to [getData]; a write resolves with
    [undefined]. *)
Definition defaultValue {T} (r : request T) : T :=
  match r in request T return T with
  | LoadBoards => []
  | LoadLists => ∅
  | LoadCards => ∅
  | _ => tt
  end.

(** The lines a call leaves on the console while the store is unavailable:
    one warning for each [getData] and [setData] it goes through. *)
Definition unavailableLog {T} (r : request T) : list string :=
  let warnings (n : nat) := replicate n "LocalStorage is not available" in
  match r with
  | LoadBoards | LoadLists | LoadCards => warnings 1%nat
  | SaveBoard _ | SaveList _ | SaveCard _ | DeleteCard _ _
  | UpdateListPositions _ _ | UpdateCardPositions _ _ => warnings 2%nat
  | DeleteList _ _ => warnings 4%nat
  | DeleteBoard _ => warnings 6%nat
  | ClearAllData => warnings 0%nat
  end.

(** [clearAllData] removes keys; every other write stores a payload. *)
Definition clears {T} (r : request T) : bool :=
  match r with
  | ClearAllData => true
  | _ => false
  end.

(** The ids that a call uses as keys of a stored document are plain. *)
Definition plain_request {T} (r : request T) : Prop :=
  match r with
  | DeleteBoard boardId => plain_key boardId
  | SaveList list => plain_key (list_boardId list)
  | DeleteList _ boardId => plain_key boardId
  | SaveCard card => plain_key (card_listId card)
  | DeleteCard _ listId => plain_key listId
  | UpdateListPositions boardId _ => plain_key boardId
  | UpdateCardPositions listId _ => plain_key listId
  | _ => True
  end.



(** [new] is [old] with [x] upserted by id: the first element with the id
    of [x] is replaced where it stands and nothing else moves or changes,
    or no element has that id and [x] is added at the end. *)
Definition is_upsert {A} (id : A -> string) (x : A) (old new : list A) : Prop :=
  (exists (i : nat) (y : A),
      old !! i = Some y /\ id y = id x /\
      (forall (j : nat) (z : A), (j < i)%nat -> old !! j = Some z -> id z <> id x) /\
      length new = length old /\
      new !! i = Some x /\
      forall j : nat, j <> i -> new !! j = old !! j)
  \/
  ((forall y : A, y ∈ old -> id y <> id x) /\ new = old ++ [x]).

(** Timestamps as text can hold them: no [Date] object. *)
Definition json_ts (v : tsval) : Prop := ts_toJSON v = v.
Definition json_card (c : Card) : Prop :=
  json_ts (card_createdAt c) /\ json_ts (card_updatedAt c).
Definition json_list (l : List) : Prop := json_ts (list_createdAt l).

Definition json_lists (doc : gmap string (list List)) : Prop :=
  map_Forall (fun _ ls => Forall json_list ls) doc.
Definition json_cards (doc : gmap string (list Card)) : Prop :=
  map_Forall (fun _ cs => Forall json_card cs) doc.

(** Timestamps of a stored board as [saveBoard] writes them: [createdAt] is
    ISO text, [updatedAt] is ISO text or is missing. *)
Definition stored_board (b : Board) : Prop :=
  (exists t, board_createdAt b = TsIso t) /\
  (board_updatedAt b = TsUndef \/ exists t, board_updatedAt b = TsIso t).

(** The collection stored under a key; [empty] when no text, or no text
    that parses, is stored. *)
Definition document {T} (k : storage_key T) (empty : T) (e : Env) : T :=
  match read_item k (disk e) with
  | Text doc => doc
  | _ => empty
  end.

(** The persistence write of a save cannot succeed. *)
Definition write_fails (e : Env) : Prop := ls_state (disk e) <> Working.

(** A read of the boards fails: the store is unavailable or the stored
    text does not parse. *)
Definition boards_read_fails (e : Env) : Prop :=
  ls_state (disk e) = Unavailable \/ trello_boards (disk e) = BadText.

(** A card as [createCard] builds it, and the worlds of the scenarios: a
    board with one list, and that list with the cards "A" and "B". *)
Definition cardA : Card :=
  mkCard "c1" "A" "" "l1" 0 (TsDate (Some 3000)) (TsDate (Some 3000)).

Definition emptyEnv (mode : ls_mode) : Env := mkEnv (emptyStorage mode) [].

Definition boardWithList : World :=
  Store.run (Store.createList (service := StorageService_adapter)
               (mkCreateListData "To Do" "b1") "l1" 2000)
    (Store.run (Store.createBoard (service := StorageService_adapter)
                  (mkCreateBoardData "Backlog" "" "blue") "b1" 1000 1000)
       (freshWorld Working)).

Definition boardWithTwoCards : World :=
  Store.run (Store.createCard (service := StorageService_adapter)
               (mkCreateCardData "B" "" "l1") "c2" 4000 4000)
    (Store.run (Store.createCard (service := StorageService_adapter)
                  (mkCreateCardData "A" "" "l1") "c1" 3000 3000)
       boardWithList).

(** The board and the first card of the scenario, edited. *)
Definition boardB_edited : Board :=
  mkBoard "b1" "Backlog, edited" "" (TsDate (Some 1000)) (TsDate (Some 5000)) "blue".

Definition cardA_edited : Card :=
  mkCard "c1" "A, edited" "" "l1" 0 (TsDate (Some 3000)) (TsDate (Some 5000)).

(** Boards loaded into memory, over a store whose boards text no longer
    parses. *)
Definition staleWorld : World :=
  mkWorld (mem boardWithList) (mkEnv (mkLocalStorage Working BadText NoItem NoItem) []).

(** Two lists: "l1" with the cards X ("x") and Y ("y"), "l2" with the card
    Z ("z"). *)
Definition cardX : Card :=
  mkCard "x" "X" "" "l1" 0 (TsDate (Some 3000)) (TsDate (Some 3000)).
Definition cardY : Card :=
  mkCard "y" "Y" "" "l1" 1 (TsDate (Some 4000)) (TsDate (Some 4000)).
Definition cardZ : Card :=
  mkCard "z" "Z" "" "l2" 0 (TsDate (Some 5000)) (TsDate (Some 5000)).

Definition twoLists : World :=
  Store.run (Store.createCard (service := StorageService_adapter)
               (mkCreateCardData "Z" "" "l2") "z" 5000 5000)
    (Store.run (Store.createCard (service := StorageService_adapter)
                  (mkCreateCardData "Y" "" "l1") "y" 4000 4000)
       (Store.run (Store.createCard (service := StorageService_adapter)
                     (mkCreateCardData "X" "" "l1") "x" 3000 3000)
          (Store.run (Store.createList (service := StorageService_adapter)
                        (mkCreateListData "Done" "b1") "l2" 2500)
             boardWithList))).

(** The board of the scenario deleted; its first card deleted, and a card
    "C" created after that; the page reloaded (memory as at start-up, the
    store as the scenario left it) and the cards of "l1" loaded. *)
Definition afterDeleteBoard : World :=
  Store.run (Store.deleteBoard (service := StorageService_adapter) "b1") boardWithTwoCards.

Definition afterDeleteCard : World :=
  Store.run (Store.deleteCard (service := StorageService_adapter) "c1" "l1")
    boardWithTwoCards.

Definition afterDeleteThenCreate : World :=
  Store.run (Store.createCard (service := StorageService_adapter)
               (mkCreateCardData "C" "" "l1") "c3" 5000 5000)
    afterDeleteCard.

Definition reloaded : World :=
  Store.run (Store.loadCards (service := StorageService_adapter) "l1")
    (Store.run (Store.loadLists (service := StorageService_adapter) "b1")
       (Store.run (Store.loadBoards (service := StorageService_adapter))
          (mkWorld initialState (env boardWithTwoCards)))).

Definition afterMoveAcross : World :=
  Store.run (Store.moveCard (service := StorageService_adapter) "x" "l1" "l2" 0 6000)
    twoLists.

(** Two lists: "l1" with the card X ("x"), "l2" with the card Z ("z"); and
    that state after [moveCard] of X within "l1", which leaves "l1" with
    two cards of the id "x". *)
Definition twoSingletons : World :=
  Store.run (Store.createCard (service := StorageService_adapter)
               (mkCreateCardData "Z" "" "l2") "z" 5000 5000)
    (Store.run (Store.createCard (service := StorageService_adapter)
                  (mkCreateCardData "X" "" "l1") "x" 3000 3000)
       (Store.run (Store.createList (service := StorageService_adapter)
                     (mkCreateListData "Done" "b1") "l2" 2500)
          boardWithList)).

Definition duplicatedCard : World :=
  Store.run (Store.moveCard (service := StorageService_adapter) "x" "l1" "l1" 0 6000)
    twoSingletons.

(** The page reloaded after X was moved from "l1" to "l2": memory as at
    start-up, the store as the move left it, the cards of both lists
    loaded. *)
Definition afterMoveReloaded : World :=
  Store.run (Store.loadCards (service := StorageService_adapter) "l2")
    (Store.run (Store.loadCards (service := StorageService_adapter) "l1")
       (mkWorld initialState (env afterMoveAcross))).

(** ** The update actions of the store, and its setters of the loading
    state *)

(** The partial data of an update: a property is present with a value, or
    absent. *)
Record UpdateBoardData : Type := mkUpdateBoardData {
  ubd_title : option string;
  ubd_description : option string;
  ubd_updatedAt : option tsval;
  ubd_color : option string
}.
Record UpdateListData : Type := mkUpdateListData {
  uld_title : option string;
  uld_position : option Z
}.
Record UpdateCardData : Type := mkUpdateCardData {
  ucd_title : option string;
  ucd_description : option string;
  ucd_position : option Z;
  ucd_updatedAt : option tsval
}.

(** The [TypeError] of [undefined.find(...)]; the text is the one of V8. *)
Definition undefinedFindError : exn :=
  Error "Cannot read properties of undefined (reading 'find')".
(** The [TypeError] of [undefined.map(...)]. *)
Definition undefinedMapError : exn :=
  Error "Cannot read properties of undefined (reading 'map')".

(** [Object.entries(dict)], for the order [keys] in which the object
    enumerates its keys (the dictionary does not record it). *)
Definition entries {A} (dict : gmap string A) (keys : list string) : list (string * A) :=
  omap (fun k => (fun v => (k, v)) <$> dict !! k) keys.

(** [keys] enumerates the keys of [dict]. *)
Definition enumerates {A} (keys : list string) (dict : gmap string A) : Prop :=
  forall k, k ∈ keys <-> is_Some (dict !! k).

Module Updates.

(** [{ ...existingBoard, ...data, updatedAt: new Date() }] *)
Definition mergeBoard (existingBoard : Board) (data : UpdateBoardData) (now : Z) : Board :=
  mkBoard (board_id existingBoard)
          (default (board_title existingBoard) (ubd_title data))
          (default (board_description existingBoard) (ubd_description data))
          (board_createdAt existingBoard)
          (TsDate (Some now))
          (default (board_color existingBoard) (ubd_color data)).

(** [{ ...list, ...data }] *)
Definition mergeList (list : List) (data : UpdateListData) : List :=
  mkList (list_id list)
         (default (list_title list) (uld_title data))
         (list_boardId list)
         (default (list_position list) (uld_position data))
         (list_createdAt list).

(** [{ ...card, ...data, updatedAt: new Date() }] *)
Definition mergeCard (card : Card) (data : UpdateCardData) (now : Z) : Card :=
  mkCard (card_id card)
         (default (card_title card) (ucd_title data))
         (default (card_description card) (ucd_description data))
         (card_listId card)
         (default (card_position card) (ucd_position data))
         (card_createdAt card)
         (TsDate (Some now)).

(** The [forEach] over [Object.entries(state.lists)] of [updateList]: every
    entry is visited; an entry bound to [undefined] throws; the last list
    found, with the key it was found under, is what the loop leaves. *)
Fixpoint scanLists (id : string) (data : UpdateListData)
    (es : list (string * option (list List))) (found : option (List * string))
    : exn + option (List * string) :=
  match es with
  | [] => inr found
  | (_, None) :: _ => inl undefinedFindError
  | (bId, Some lists) :: rest =>
      match find_ (fun l => list_id l = id) lists with
      | Some list => scanLists id data rest (Some (mergeList list data, bId))
      | None => scanLists id data rest found
      end
  end.

(** The same loop of [updateCard], over [Object.entries(state.cards)]. *)
Fixpoint scanCards (id : string) (data : UpdateCardData) (now : Z)
    (es : list (string * option (list Card))) (found : option (Card * string))
    : exn + option (Card * string) :=
  match es with
  | [] => inr found
  | (_, None) :: _ => inl undefinedFindError
  | (lId, Some cards) :: rest =>
      match find_ (fun c => card_id c = id) cards with
      | Some card => scanCards id data now rest (Some (mergeCard card data now, lId))
      | None => scanCards id data now rest found
      end
  end.

Section Actions.
Context {service : Service.Adapter}.

Definition updateBoard (id : string) (data : UpdateBoardData) (now : Z) : M World unit :=
  Store.startSaving;;
  try_catch
    (state ← Store.getState;
     match find_ (fun b => board_id b = id) (boards state) with
     | None => throw (Error "Board not found")
     | Some existingBoard =>
         let updatedBoard := mergeBoard existingBoard data now in
         p ← Store.call (Service.saveBoard updatedBoard);
         await p;;
         Store.setState (fun state =>
           Store.doneSaving
             (with_boards
                ((fun b => if decide (board_id b = id) then updatedBoard else b)
                   <$> boards state) state))
     end)
    (fun error => Store.failSaving error "Failed to update board").

(** [keys] is the order in which [Object.entries(state.lists)] enumerates. *)
Definition updateList (id : string) (data : UpdateListData) (keys : list string)
    : M World unit :=
  Store.startSaving;;
  try_catch
    (state ← Store.getState;
     match scanLists id data (entries (lists state) keys) None with
     | inl error => throw error
     | inr None => throw (Error "List not found")
     | inr (Some (updatedList, boardId)) =>
         if decide (boardId = "") then throw (Error "List not found")
         else
           p ← Store.call (Service.saveList updatedList);
           await p;;
           state ← Store.getState;
           match lists state !! boardId with
           | Some (Some boardLists) =>
               Store.setState (fun state =>
                 Store.doneSaving
                   (with_lists
                      (<[boardId :=
                           Some ((fun l => if decide (list_id l = id) then updatedList else l)
                                   <$> boardLists)]> (lists state)) state))
           | _ => throw undefinedMapError
           end
     end)
    (fun error => Store.failSaving error "Failed to update list").

(** [keys] is the order in which [Object.entries(state.cards)] enumerates. *)
Definition updateCard (id : string) (data : UpdateCardData) (now : Z)
    (keys : list string) : M World unit :=
  Store.startSaving;;
  try_catch
    (state ← Store.getState;
     match scanCards id data now (entries (cards state) keys) None with
     | inl error => throw error
     | inr None => throw (Error "Card not found")
     | inr (Some (updatedCard, listId)) =>
         if decide (listId = "") then throw (Error "Card not found")
         else
           p ← Store.call (Service.saveCard updatedCard);
           await p;;
           state ← Store.getState;
           match cards state !! listId with
           | Some (Some listCards) =>
               Store.setState (fun state =>
                 Store.doneSaving
                   (with_cards
                      (<[listId :=
                           Some ((fun c => if decide (card_id c = id) then updatedCard else c)
                                   <$> listCards)]> (cards state)) state))
           | _ => throw undefinedMapError
           end
     end)
    (fun error => Store.failSaving error "Failed to update card").

(** [setLoading] and [setError] *)
Definition setLoading (boards_ saving : option bool) (error : option (option string))
    : M World unit :=
  Store.setState (fun state =>
    with_loading
      (mkLoading (default (loading_boards (loading state)) boards_)
                 (default (loading_saving (loading state)) saving)
                 (default (loading_error (loading state)) error)) state).

Definition setError (error : option string) : M World unit :=
  Store.setState (fun state => with_loading (with_error error (loading state)) state).

End Actions.
End Updates.

(** ** More vocabulary *)

(** The actions of the store, with what [generateId()], [new Date()] and
    the enumeration of the keys supply to each. *)
Inductive action : Type :=
  | ALoadBoards
  | ACreateBoard (data : CreateBoardData) (newId : string) (createdNow updatedNow : Z)
  | AUpdateBoard (id : string) (data : UpdateBoardData) (now : Z)
  | ADeleteBoard (id : string)
  | ASetCurrentBoard (boardId : option string)
  | ALoadLists (boardId : string)
  | ACreateList (data : CreateListData) (newId : string) (now : Z)
  | AUpdateList (id : string) (data : UpdateListData) (keys : list string)
  | ADeleteList (id boardId : string)
  | AReorderLists (boardId : string) (startIndex endIndex : Z)
  | ALoadCards (listId : string)
  | ACreateCard (data : CreateCardData) (newId : string) (createdNow updatedNow : Z)
  | AUpdateCard (id : string) (data : UpdateCardData) (now : Z) (keys : list string)
  | ADeleteCard (id listId : string)
  | AMoveCard (cardId sourceListId destListId : string) (destIndex now : Z)
  | AReorderCards (listId : string) (startIndex endIndex : Z)
  | ASetError (error : option string).

Definition dispatch {service : Service.Adapter} (a : action) : M World unit :=
  match a with
  | ALoadBoards => Store.loadBoards
  | ACreateBoard data newId createdNow updatedNow =>
      Store.createBoard data newId createdNow updatedNow
  | AUpdateBoard id data now => Updates.updateBoard id data now
  | ADeleteBoard id => Store.deleteBoard id
  | ASetCurrentBoard boardId => Store.setCurrentBoard boardId
  | ALoadLists boardId => Store.loadLists boardId
  | ACreateList data newId now => Store.createList data newId now
  | AUpdateList id data keys => Updates.updateList id data keys
  | ADeleteList id boardId => Store.deleteList id boardId
  | AReorderLists boardId startIndex endIndex =>
      Store.reorderLists boardId startIndex endIndex
  | ALoadCards listId => Store.loadCards listId
  | ACreateCard data newId createdNow updatedNow =>
      Store.createCard data newId createdNow updatedNow
  | AUpdateCard id data now keys => Updates.updateCard id data now keys
  | ADeleteCard id listId => Store.deleteCard id listId
  | AMoveCard cardId sourceListId destListId destIndex now =>
      Store.moveCard cardId sourceListId destListId destIndex now
  | AReorderCards listId startIndex endIndex =>
      Store.reorderCards listId startIndex endIndex
  | ASetError error => Updates.setError error
  end.

(** A service whose every call returns a promise that rejects with
    [error]. *)
Definition rejectingService (error : exn) : Service.Adapter := {|
  Service.loadBoards := mret (throw error);
  Service.saveBoard := fun _ => mret (throw error);
  Service.deleteBoard := fun _ => mret (throw error);
  Service.loadLists := mret (throw error);
  Service.saveList := fun _ => mret (throw error);
  Service.deleteList := fun _ _ => mret (throw error);
  Service.loadCards := mret (throw error);
  Service.saveCard := fun _ => mret (throw error);
  Service.deleteCard := fun _ _ => mret (throw error);
  Service.updateListPositions := fun _ _ => mret (throw error);
  Service.updateCardPositions := fun _ _ => mret (throw error)
|}.

(** The actions that go to the service: all but the two setters. *)
Definition persists (a : action) : bool :=
  match a with
  | ASetCurrentBoard _ | ASetError _ => false
  | _ => true
  end.

(** The stored cards (lists) under a key are the ones in memory, in their
    JSON encoding; the stored boards are the ones in memory. *)
Definition cards_in_step (listId : string) (w : World) : Prop :=
  StorageService.at_key (document CARDS ∅ (env w)) listId
    = card_toJSON <$> or_empty (cards (mem w) !! listId).
Definition lists_in_step (boardId : string) (w : World) : Prop :=
  StorageService.at_key (document LISTS ∅ (env w)) boardId
    = list_toJSON <$> or_empty (lists (mem w) !! boardId).
Definition boards_in_step (w : World) : Prop :=
  document BOARDS [] (env w) = board_toJSON <$> boards (mem w).

(** Timestamps of a board in memory as the store builds them: [createdAt]
    is a valid [Date], [updatedAt] is a valid [Date] or is missing. *)
Definition dated_board (b : Board) : Prop :=
  (exists t, board_createdAt b = TsDate (Some t)) /\
  (board_updatedAt b = TsUndef \/ exists u, board_updatedAt b = TsDate (Some u)).

(** [localStorage.setItem] succeeds. *)
Definition working (e : Env) : Prop := ls_state (disk e) = Working.

(** Whether a stored document holds text only can be computed. *)
#[global] Instance tsval_eq_dec : EqDecision tsval.
Proof. solve_decision. Defined.
#[global] Instance json_card_dec (c : Card) : Decision (json_card c).
Proof. unfold json_card, json_ts. apply _. Defined.
#[global] Instance json_list_dec (l : List) : Decision (json_list l).
Proof. unfold json_list, json_ts. apply _. Defined.
#[global] Instance json_cards_dec (doc : gmap string (list Card)) : Decision (json_cards doc).
Proof. unfold json_cards. apply _. Defined.
#[global] Instance json_lists_dec (doc : gmap string (list List)) : Decision (json_lists doc).
Proof. unfold json_lists. apply _. Defined.

(** ** Proof tools *)

(** Unfolds the monad and the [localStorage] primitives. *)
Ltac unfold_io :=
  cbv [mbind M_bind mret M_ret try_catch throw modify get_state await settle async_fn
       await_all2 console_log localStorage_probe localStorage_getItem
       localStorage_setItem localStorage_removeItem JSON_parse
       StorageService.isStorageAvailable StorageService.getData StorageService.setData].

(** Unfolds the methods of [StorageService] down to the monad. *)
Ltac unfold_service :=
  cbv [perform StorageService.loadBoards StorageService.saveBoard
       StorageService.deleteBoard StorageService.deleteBoardData
       StorageService.loadLists StorageService.saveList StorageService.deleteList
       StorageService.deleteListCards StorageService.loadCards
       StorageService.saveCard StorageService.deleteCard
       StorageService.updateListPositions StorageService.updateCardPositions
       StorageService.clearAllData];
  unfold_io.

(** Unfolds the plumbing of the store down to the monad. *)
Ltac unfold_store :=
  cbv [Store.run Store.call Store.liftEnv Store.getState Store.setState
       Store.startSaving Store.failSaving Store.failWith];
  cbv [mbind M_bind mret M_ret try_catch throw modify get_state await settle
       await_all2].

(** * Properties *)

(** ** Arrays *)

Section Arrays.
Context {A : Type}.
Implicit Types (l : list A) (x : A) (i : nat).

(** Putting the element taken out at [i] back at [i] gives the array back. *)
Lemma reinsert_deleted l i x :
  l !! i = Some x -> take i (delete i l) ++ x :: drop i (delete i l) = l.
Proof.
  intros Hx.
  assert (i < length l)%nat as Hi by (eapply lookup_lt_Some; eauto).
  rewrite delete_take_drop.
  rewrite take_app_length' by (rewrite length_take; lia).
  rewrite drop_app_length' by (rewrite length_take; lia).
  by apply take_drop_middle.
Qed.

(** Taking out what was inserted at [j] undoes the insertion. *)
Lemma delete_inserted l j x :
  (j <= length l)%nat -> delete j (take j l ++ x :: drop j l) = l.
Proof.
  intros Hj.
  rewrite <- (take_drop j l) at 3.
  replace j with (length (take j l)) at 1 by (rewrite length_take; lia).
  by rewrite delete_middle.
Qed.

Lemma lookup_inserted l j x :
  (j <= length l)%nat -> (take j l ++ x :: drop j l) !! j = Some x.
Proof.
  intros Hj. apply list_lookup_middle. rewrite length_take. lia.
Qed.

Lemma length_inserted l j x :
  length (take j l ++ x :: drop j l) = S (length l).
Proof.
  rewrite length_app; simpl. rewrite length_take, length_drop. lia.
Qed.

Lemma inserted_Permutation l j x : take j l ++ x :: drop j l ≡ₚ x :: l.
Proof.
  rewrite <- Permutation_middle. by rewrite take_drop.
Qed.

Lemma length_splice_insert (start : Z) x l :
  length (splice_insert start x l) = S (length l).
Proof. apply length_inserted. Qed.

End Arrays.

(** ** [reorder] *)

Section Reorder.
Context {A : Type}.
Implicit Types (s : list A).

(** For indices inside the sequence, [reorder] takes the element out at
    [i] and puts it in at [j]. *)
Lemma reorder_valid s (i j : Z) x :
  0 <= i -> 0 <= j < Z.of_nat (length s) -> s !! Z.to_nat i = Some x ->
  Utils.reorder s i j =
    take (Z.to_nat j) (delete (Z.to_nat i) s) ++ x :: drop (Z.to_nat j) (delete (Z.to_nat i) s).
Proof.
  intros Hi Hj Hx. unfold Utils.reorder.
  destruct (Z.ltb_spec i 0) as [?|_]; [lia|].
  rewrite Hx.
  by replace (Z.max 0 (Z.min j (Z.of_nat (length s) - 1))) with j by lia.
Qed.

Lemma reorder_length s (i j : Z) : length (Utils.reorder s i j) = length s.
Proof.
  unfold Utils.reorder.
  destruct (if i <? 0 then None else s !! Z.to_nat i) as [x|] eqn:Hx; [|done].
  destruct (i <? 0); [done|].
  rewrite length_inserted, length_delete by eauto.
  apply lookup_lt_Some in Hx. lia.
Qed.

(** C9. For every sequence [s] and indices [i], [j] inside it:
    [reorder s i i] is [s]; [reorder s i j] is a permutation of [s]; and
    when [i <> j], reordering the result back from [j] to [i] restores
    [s]. *)
Theorem reorder_laws s (i j : Z) :
  0 <= i < Z.of_nat (length s) ->
  0 <= j < Z.of_nat (length s) ->
  Utils.reorder s i i = s /\
  Utils.reorder s i j ≡ₚ s /\
  (i <> j -> Utils.reorder (Utils.reorder s i j) j i = s).
Proof.
  intros Hi Hj.
  destruct (lookup_lt_is_Some_2 s (Z.to_nat i)) as [x Hx]; [lia|].
  assert (length (delete (Z.to_nat i) s) = (length s - 1)%nat) as Hlen
    by (rewrite length_delete; eauto).
  split; [|split].
  - rewrite (reorder_valid s i i x) by (auto; lia). by apply reinsert_deleted.
  - rewrite (reorder_valid s i j x) by (auto; lia).
    rewrite inserted_Permutation. symmetry. by apply delete_Permutation.
  - intros _.
    rewrite (reorder_valid (Utils.reorder s i j) j i x).
    + rewrite (reorder_valid s i j x) by (auto; lia).
      rewrite delete_inserted by lia. by apply reinsert_deleted.
    + lia.
    + rewrite reorder_length. lia.
    + rewrite (reorder_valid s i j x) by (auto; lia).
      apply lookup_inserted. lia.
Qed.

End Reorder.

Lemma reorder_laws_witness :
  Utils.reorder ["A"; "B"; "C"] 0 2 = ["B"; "C"; "A"] /\
  Utils.reorder (Utils.reorder ["A"; "B"; "C"] 0 2) 2 0 = ["A"; "B"; "C"].
Proof.
  split; [reflexivity|].
  apply (reorder_laws ["A"; "B"; "C"] 0 2); [simpl; lia | simpl; lia | lia].
Defined.

(** ** [StorageService]: [getData] and [setData] *)

Section GetSet.
Context {T : Type} (key : storage_key T).

Lemma getData_unavailable (defaultValue : T) e :
  ls_state (disk e) = Unavailable ->
  StorageService.getData key defaultValue e =
    (mkEnv (disk e) (console e ++ ["LocalStorage is not available"]), Resolved defaultValue).
Proof.
  destruct e as [[mode bs ls cs] out]; simpl; intros ->. reflexivity.
Qed.

Lemma getData_available (defaultValue : T) e :
  ls_state (disk e) <> Unavailable ->
  StorageService.getData key defaultValue e =
    match read_item key (disk e) with
    | NoItem => (e, Resolved defaultValue)
    | BadText =>
        (mkEnv (disk e)
               (console e ++ ["Error reading from localStorage for key " +:+ key_name key +:+ ":"]),
         Resolved defaultValue)
    | Text doc => (e, Resolved (revive_dates key doc))
    end.
Proof.
  destruct e as [[mode bs ls cs] out]; simpl; intros Hmode.
  destruct mode; [|done|]; unfold_io; simpl;
    destruct (read_item key _); reflexivity.
Qed.

Lemma setData_working (data : T) e :
  ls_state (disk e) = Working ->
  StorageService.setData key data e =
    (mkEnv (write_item key (Text (JSON_stringify key data)) (disk e)) (console e),
     Resolved tt).
Proof.
  destruct e as [[mode bs ls cs] out]; simpl; intros ->. reflexivity.
Qed.

Lemma setData_unavailable (data : T) e :
  ls_state (disk e) = Unavailable ->
  StorageService.setData key data e =
    (mkEnv (disk e) (console e ++ ["LocalStorage is not available"]), Resolved tt).
Proof.
  destruct e as [[mode bs ls cs] out]; simpl; intros ->. reflexivity.
Qed.

Lemma setData_refused (data : T) e :
  ls_state (disk e) = QuotaExceeded ->
  StorageService.setData key data e =
    (mkEnv (disk e)
           (console e ++ ["Error writing to localStorage for key " +:+ key_name key +:+ ":"]),
     Resolved tt).
Proof.
  destruct e as [[mode bs ls cs] out]; simpl; intros ->. reflexivity.
Qed.

(** Neither ever throws. *)
Lemma getData_resolves (defaultValue : T) e :
  exists out v,
    StorageService.getData key defaultValue e = (mkEnv (disk e) out, Resolved v).
Proof.
  destruct (ls_state (disk e)) eqn:H.
  2: { rewrite getData_unavailable by done. eauto. }
  all: rewrite getData_available by congruence;
    destruct e as [d out]; simpl; destruct (read_item key d); eauto.
Qed.

Lemma setData_resolves (data : T) e :
  exists e', StorageService.setData key data e = (e', Resolved tt).
Proof.
  destruct (ls_state (disk e)) eqn:H.
  - rewrite setData_working by done. eauto.
  - rewrite setData_unavailable by done. eauto.
  - rewrite setData_refused by done. eauto.
Qed.

End GetSet.

(** ** [StorageService] over a store that cannot be written *)

(** While the probe fails, a call resolves with its default, leaves the
    stored text alone and only writes warnings on the console. *)
Lemma perform_unavailable {T} (r : request T) e :
  ls_state (disk e) = Unavailable ->
  settle (perform r) e =
    (mkEnv (disk e) (console e ++ unavailableLog r), Resolved (defaultValue r)).
Proof.
  destruct e as [[mode bs ls cs] out]; simpl; intros ->.
  destruct r; unfold_service; simpl; rewrite <- ?app_assoc, ?app_nil_r; reflexivity.
Qed.

(** While payloads are refused, a call resolves and the stored text stays
    as it is. *)
Lemma perform_refused {T} (r : request T) e :
  ls_state (disk e) = QuotaExceeded ->
  clears r = false ->
  exists out v, settle (perform r) e = (mkEnv (disk e) out, Resolved v).
Proof.
  destruct e as [[mode bs ls cs] out]; simpl; intros -> Hr.
  destruct r; try discriminate Hr; unfold_service; simpl;
    try destruct bs; try destruct ls; try destruct cs; simpl; eauto.
Qed.

(** No call of [StorageService] ever rejects, whatever the store holds. *)
Lemma perform_resolves {T} (r : request T) e :
  exists e' v, settle (perform r) e = (e', Resolved v).
Proof.
  destruct e as [[mode bs ls cs] out].
  destruct r; unfold_service; simpl;
    destruct mode; simpl; eauto;
    try destruct bs; try destruct ls; try destruct cs; simpl; eauto.
Qed.





(** ** The three [save] methods are upserts *)

Section Upsert.
Context {A : Type} (id : A -> string).
Implicit Types (x : A) (old new : list A).

Lemma upsert_is_upsert x old : is_upsert id x old (upsert id x old).
Proof.
  unfold upsert, findIndex.
  destruct (list_find (fun y => id y = id x) old) as [[i y]|] eqn:Hfind.
  - apply list_find_Some in Hfind as (Hy & Hid & Hfirst).
    assert (i < length old)%nat by (eapply lookup_lt_Some; eauto).
    destruct (Z.leb_spec 0 (Z.of_nat i)); [|lia].
    unfold assign_at. rewrite Nat2Z.id.
    left. exists i, y. split_and!; auto.
    + intros j z ? ?. eauto.
    + apply length_insert.
    + by apply list_lookup_insert_eq.
    + intros j ?. by apply list_lookup_insert_ne.
  - apply list_find_None in Hfind.
    right. split; [|done].
    intros y Hy. by eapply Forall_forall in Hfind.
Qed.

(** An upsert seen through a re-encoding [f] that keeps the ids. *)
Lemma is_upsert_fmap (f : A -> A) x old new :
  (forall y, id (f y) = id y) ->
  is_upsert id x old new -> is_upsert id (f x) (f <$> old) (f <$> new).
Proof.
  intros Hf [(i & y & Hy & Hid & Hfirst & Hlen & Hx & Hrest)|[Hnone ->]].
  - left. exists i, (f y). split_and!.
    + by rewrite list_lookup_fmap, Hy.
    + by rewrite !Hf.
    + intros j z Hj. rewrite list_lookup_fmap.
      destruct (old !! j) as [z'|] eqn:Hz; [|done].
      intros [= <-]. rewrite !Hf. eauto.
    + by rewrite !length_fmap.
    + by rewrite list_lookup_fmap, Hx.
    + intros j Hj. by rewrite !list_lookup_fmap, Hrest.
  - right. split.
    + intros y (z & -> & Hz)%list_elem_of_fmap. rewrite !Hf. eauto.
    + by rewrite fmap_app.
Qed.

End Upsert.

Lemma json_list_fixed ls : Forall json_list ls -> list_toJSON <$> ls = ls.
Proof.
  intros H. rewrite <- (list_fmap_id ls) at 2. apply Forall_fmap_ext.
  eapply Forall_impl; [exact H|]. intros [i t b p c] Hc; unfold json_list in Hc.
  unfold list_toJSON; simpl in *. by rewrite Hc.
Qed.

Lemma json_card_fixed cs : Forall json_card cs -> card_toJSON <$> cs = cs.
Proof.
  intros H. rewrite <- (list_fmap_id cs) at 2. apply Forall_fmap_ext.
  eapply Forall_impl; [exact H|]. intros [i t d l p c u] [Hc Hu].
  unfold card_toJSON; simpl in *. by rewrite Hc, Hu.
Qed.

Lemma json_lists_fixed doc : json_lists doc -> lists_toJSON doc = doc.
Proof.
  intros H. unfold lists_toJSON. rewrite <- (map_fmap_id doc) at 2.
  apply map_fmap_ext. intros k ls Hk. apply json_list_fixed. by eapply H.
Qed.

Lemma json_cards_fixed doc : json_cards doc -> cards_toJSON doc = doc.
Proof.
  intros H. unfold cards_toJSON. rewrite <- (map_fmap_id doc) at 2.
  apply map_fmap_ext. intros k cs Hk. apply json_card_fixed. by eapply H.
Qed.

(** Reading a stored board and writing it again gives the same text. *)
Lemma stored_board_fixed bs :
  Forall stored_board bs -> board_toJSON <$> (revive_board <$> bs) = bs.
Proof.
  intros H. rewrite <- list_fmap_compose. rewrite <- (list_fmap_id bs) at 2.
  apply Forall_fmap_ext. eapply Forall_impl; [exact H|].
  intros [i t d c u col] [[tc Hc] [Hu|[tu Hu]]]; simpl in *; subst; reflexivity.
Qed.

Lemma document_written {T} (k : storage_key T) (doc empty : T) d out :
  document k empty (mkEnv (write_item k (Text doc) d) out) = doc.
Proof. destruct k; reflexivity. Qed.

Lemma at_key_insert {A} (doc : gmap string (list A)) k v :
  StorageService.at_key (<[k := v]> doc) k = v.
Proof. unfold StorageService.at_key. by rewrite lookup_insert_eq. Qed.

Lemma at_key_Forall {A} (P : A -> Prop) (doc : gmap string (list A)) k :
  map_Forall (fun _ l => Forall P l) doc -> Forall P (StorageService.at_key doc k).
Proof.
  intros H. unfold StorageService.at_key.
  destruct (doc !! k) eqn:Hk; simpl; [by eapply H|done].
Qed.

(** What the three methods leave in a working store. *)
Lemma saveBoard_working board e :
  ls_state (disk e) = Working ->
  exists out,
    settle (StorageService.saveBoard board) e =
      (mkEnv (write_item BOARDS
                (Text (boards_toJSON
                         (upsert board_id board (revive_board <$> document BOARDS [] e))))
                (disk e)) out,
       Resolved tt).
Proof.
  destruct e as [[mode bs ls cs] out]; simpl; intros ->.
  unfold document; simpl. destruct bs; unfold_service; simpl; eexists; reflexivity.
Qed.

Lemma saveList_working list e :
  ls_state (disk e) = Working ->
  exists out,
    settle (StorageService.saveList list) e =
      (mkEnv (write_item LISTS
                (Text (lists_toJSON
                         (<[list_boardId list :=
                              upsert list_id list
                                (StorageService.at_key (document LISTS ∅ e) (list_boardId list))]>
                            (document LISTS ∅ e))))
                (disk e)) out,
       Resolved tt).
Proof.
  destruct e as [[mode bs ls cs] out]; simpl; intros ->.
  unfold document; simpl. destruct ls; unfold_service; simpl; eexists; reflexivity.
Qed.

Lemma saveCard_working card e :
  ls_state (disk e) = Working ->
  exists out,
    settle (StorageService.saveCard card) e =
      (mkEnv (write_item CARDS
                (Text (cards_toJSON
                         (<[card_listId card :=
                              upsert card_id card
                                (StorageService.at_key (document CARDS ∅ e) (card_listId card))]>
                            (document CARDS ∅ e))))
                (disk e)) out,
       Resolved tt).
Proof.
  destruct e as [[mode bs ls cs] out]; simpl; intros ->.
  unfold document; simpl. destruct cs; unfold_service; simpl; eexists; reflexivity.
Qed.

(** C10. On a working store, [saveBoard], [saveList] and [saveCard] upsert
    the entity (in its JSON encoding) by id into its stored collection: the
    first stored entity with that id is replaced where it stands, or the
    entity is appended; every other stored entity, every other collection
    and the two other keys stay as they are.  The stored timestamps are
    those the program writes: text, and for boards ISO text with an
    [updatedAt] that may be missing.  The [boardId] of the list and the
    [listId] of the card, which key the collection, are plain. *)
Theorem save_is_upsert :
  (forall e board,
      ls_state (disk e) = Working ->
      Forall stored_board (document BOARDS [] e) ->
      exists e',
        settle (StorageService.saveBoard board) e = (e', Resolved tt) /\
        is_upsert board_id (board_toJSON board)
          (document BOARDS [] e) (document BOARDS [] e') /\
        trello_lists (disk e') = trello_lists (disk e) /\
        trello_cards (disk e') = trello_cards (disk e)) /\
  (forall e list,
      ls_state (disk e) = Working ->
      json_lists (document LISTS ∅ e) ->
      plain_key (list_boardId list) ->
      exists e',
        settle (StorageService.saveList list) e = (e', Resolved tt) /\
        is_upsert list_id (list_toJSON list)
          (StorageService.at_key (document LISTS ∅ e) (list_boardId list))
          (StorageService.at_key (document LISTS ∅ e') (list_boardId list)) /\
        (forall k, k <> list_boardId list ->
                   document LISTS ∅ e' !! k = document LISTS ∅ e !! k) /\
        trello_boards (disk e') = trello_boards (disk e) /\
        trello_cards (disk e') = trello_cards (disk e)) /\
  (forall e card,
      ls_state (disk e) = Working ->
      json_cards (document CARDS ∅ e) ->
      plain_key (card_listId card) ->
      exists e',
        settle (StorageService.saveCard card) e = (e', Resolved tt) /\
        is_upsert card_id (card_toJSON card)
          (StorageService.at_key (document CARDS ∅ e) (card_listId card))
          (StorageService.at_key (document CARDS ∅ e') (card_listId card)) /\
        (forall k, k <> card_listId card ->
                   document CARDS ∅ e' !! k = document CARDS ∅ e !! k) /\
        trello_boards (disk e') = trello_boards (disk e) /\
        trello_lists (disk e') = trello_lists (disk e)).
Proof.
  split_and!.
  - intros e board Hmode Hstored.
    destruct (saveBoard_working board e Hmode) as [out ->].
    eexists. split; [reflexivity|]. split; [|done].
    rewrite document_written. unfold boards_toJSON.
    rewrite <- (stored_board_fixed (document BOARDS [] e)) at 1 by done.
    apply is_upsert_fmap; [done|]. apply upsert_is_upsert.
  - intros e list Hmode Hjson _.
    destruct (saveList_working list e Hmode) as [out ->].
    eexists. split; [reflexivity|].
    rewrite !document_written.
    unfold lists_toJSON. rewrite fmap_insert.
    fold (lists_toJSON (document LISTS ∅ e)). rewrite json_lists_fixed by done.
    rewrite at_key_insert.
    split_and!; [|by intros k Hk; rewrite lookup_insert_ne|done|done].
    set (old := StorageService.at_key (document LISTS ∅ e) (list_boardId list)).
    rewrite <- (json_list_fixed old) at 1 by (by apply at_key_Forall).
    apply is_upsert_fmap; [done|]. apply upsert_is_upsert.
  - intros e card Hmode Hjson _.
    destruct (saveCard_working card e Hmode) as [out ->].
    eexists. split; [reflexivity|].
    rewrite !document_written.
    unfold cards_toJSON. rewrite fmap_insert.
    fold (cards_toJSON (document CARDS ∅ e)). rewrite json_cards_fixed by done.
    rewrite at_key_insert.
    split_and!; [|by intros k Hk; rewrite lookup_insert_ne|done|done].
    set (old := StorageService.at_key (document CARDS ∅ e) (card_listId card)).
    rewrite <- (json_card_fixed old) at 1 by (by apply at_key_Forall).
    apply is_upsert_fmap; [done|]. apply upsert_is_upsert.
Qed.

Lemma save_is_upsert_witness :
  (exists e',
      settle (StorageService.saveBoard boardB_edited) (env boardWithTwoCards)
        = (e', Resolved tt) /\
      document BOARDS [] e' = [board_toJSON boardB_edited]) /\
  (exists e',
      settle (StorageService.saveCard cardA_edited) (env boardWithTwoCards)
        = (e', Resolved tt) /\
      is_upsert card_id (card_toJSON cardA_edited)
        (StorageService.at_key (document CARDS ∅ (env boardWithTwoCards)) "l1")
        (StorageService.at_key (document CARDS ∅ e') "l1") /\
      card_title <$> StorageService.at_key (document CARDS ∅ e') "l1" = ["A, edited"; "B"]).
Proof.
  split.
  - destruct (proj1 save_is_upsert (env boardWithTwoCards) boardB_edited)
      as (e' & Hrun & Hupsert & _).
    + reflexivity.
    + vm_compute. constructor; [|constructor].
      split; [eexists; reflexivity | right; eexists; reflexivity].
    + exists e'. split; [exact Hrun|].
      injection Hrun as <-. reflexivity.
  - destruct (proj2 (proj2 save_is_upsert) (env boardWithTwoCards) cardA_edited)
      as (e' & Hrun & Hupsert & _).
    + reflexivity.
    + replace (document CARDS ∅ (env boardWithTwoCards))
        with (<["l1" := [card_toJSON cardA;
                         mkCard "c2" "B" "" "l1" 1 (TsIso 4000) (TsIso 4000)]]>
                (∅ : gmap string (list Card)))
        by reflexivity.
      apply map_Forall_insert_2; [|apply map_Forall_empty].
      repeat constructor.
    + apply (bool_decide_unpack _). vm_compute. exact I.
    + exists e'. split; [exact Hrun|]. split; [exact Hupsert|].
      injection Hrun as <-. reflexivity.
Defined.

(** ** The store: what an action does with the answer of the service *)

Section AnyService.
Context {service : Service.Adapter}.

(** [createCard] changes the cards in memory only after [saveCard] has
    resolved. *)
Lemma createCard_accepted w data newId createdNow updatedNow e' :
  let old := or_empty (cards (mem w) !! ccd_listId data) in
  let card := Store.newCard data newId old createdNow updatedNow in
  settle (Service.saveCard card) (env w) = (e', Resolved tt) ->
  Store.run (Store.createCard data newId createdNow updatedNow) w =
    mkWorld
      (with_loading (mkLoading (loading_boards (loading (mem w))) false None)
         (with_cards (<[ccd_listId data := Some (old ++ [card])]> (cards (mem w))) (mem w)))
      e'.
Proof.
  intros old card. unfold Store.createCard. unfold_store. simpl. fold old card.
  destruct (Service.saveCard card (env w)) as [e1 [p|err1]]; [|done].
  intros Hp; simpl; rewrite Hp. reflexivity.
Qed.

(** When [saveCard] rejects, the cards in memory are untouched and the
    error slot holds the message of the error (or the fallback text). *)
Lemma createCard_rejected w data newId createdNow updatedNow e' err :
  let old := or_empty (cards (mem w) !! ccd_listId data) in
  let card := Store.newCard data newId old createdNow updatedNow in
  settle (Service.saveCard card) (env w) = (e', Rejected err) ->
  Store.run (Store.createCard data newId createdNow updatedNow) w =
    mkWorld
      (with_loading
         (mkLoading (loading_boards (loading (mem w))) false
                    (Some (message_or err "Failed to create card")))
         (mem w))
      e'.
Proof.
  intros old card. unfold Store.createCard. unfold_store. simpl. fold old card.
  destruct (Service.saveCard card (env w)) as [e1 [p|err1]].
  - intros Hp; simpl; rewrite Hp. reflexivity.
  - intros [= -> ->]. reflexivity.
Qed.

(** [loadBoards] replaces the boards in memory by what the service
    resolves with, and keeps them when the service rejects. *)
Lemma loadBoards_resolved w e' loaded :
  settle Service.loadBoards (env w) = (e', Resolved loaded) ->
  Store.run Store.loadBoards w =
    mkWorld
      (with_loading (mkLoading false (loading_saving (loading (mem w))) None)
         (with_boards loaded (mem w)))
      e'.
Proof.
  unfold Store.loadBoards. unfold_store. simpl.
  destruct (Service.loadBoards (env w)) as [e1 [p|err1]]; [|done].
  intros Hp; simpl; rewrite Hp. reflexivity.
Qed.

Lemma loadBoards_rejected w e' err :
  settle Service.loadBoards (env w) = (e', Rejected err) ->
  Store.run Store.loadBoards w =
    mkWorld
      (with_loading
         (mkLoading false (loading_saving (loading (mem w)))
                    (Some (message_or err "Failed to load boards")))
         (mem w))
      e'.
Proof.
  unfold Store.loadBoards. unfold_store. simpl.
  destruct (Service.loadBoards (env w)) as [e1 [p|err1]].
  - intros Hp; simpl; rewrite Hp. reflexivity.
  - intros [= -> ->]. reflexivity.
Qed.

End AnyService.

(** ** Renumbering *)

Lemma renumberCards_length l : length (renumberCards l) = length l.
Proof. apply length_imap. Qed.

Lemma renumberCards_ids l : card_id <$> renumberCards l = card_id <$> l.
Proof.
  unfold renumberCards. rewrite fmap_imap, <- imap_const. by apply imap_ext.
Qed.

(** After renumbering the positions are [0, 1, ..., n-1] in sequence
    order. *)
Lemma renumberCards_dense l : dense (cardPositions (renumberCards l)).
Proof.
  unfold dense, cardPositions, renumberCards.
  rewrite length_fmap, length_imap, fmap_imap.
  rewrite (imap_ext _ (fun index _ => Z.of_nat index)) by done.
  by rewrite imap_seq_0.
Qed.

Lemma renumberLists_dense l : dense (listPositions (renumberLists l)).
Proof.
  unfold dense, listPositions, renumberLists.
  rewrite length_fmap, length_imap, fmap_imap.
  rewrite (imap_ext _ (fun index _ => Z.of_nat index)) by done.
  by rewrite imap_seq_0.
Qed.

(** Dense in sequence order is dense as a set. *)
Lemma dense_dense_set positions : dense positions -> dense_set positions.
Proof.
  unfold dense, dense_set. intros ->. rewrite length_fmap, length_seq. split.
  - apply NoDup_fmap_2; [apply Nat2Z.inj'|apply NoDup_seq].
  - intros p. rewrite list_elem_of_fmap. split.
    + intros (n & -> & Hn%elem_of_seq). lia.
    + intros Hp. exists (Z.to_nat p). split; [lia|]. apply elem_of_seq. lia.
Qed.

(** ** [splice] and [filter] *)

Lemma splice_insert_fmap {A B} (f : A -> B) (start : Z) x l :
  f <$> splice_insert start x l = splice_insert start (f x) (f <$> l).
Proof.
  unfold splice_insert. rewrite length_fmap.
  by rewrite fmap_app, fmap_cons, fmap_take, fmap_drop.
Qed.

(** Inserting an element that is already there gives a duplicate. *)
Lemma splice_insert_duplicate {A} (start : Z) (x : A) l :
  x ∈ l -> ~ NoDup (splice_insert start x l).
Proof.
  unfold splice_insert. intros Hx Hnodup.
  rewrite <- (take_drop (splice_start (length l) start) l) in Hx.
  apply elem_of_app in Hx.
  apply NoDup_app in Hnodup as (_ & Hdisjoint & [Hnotin _]%NoDup_cons).
  destruct Hx as [Hx|Hx]; [|done].
  apply (Hdisjoint x Hx). left.
Qed.

(** Removing by id takes out exactly one element when the ids are
    distinct. *)
Lemma filter_out_unique_id (cardId : string) (l : list Card) (c : Card) :
  NoDup (card_id <$> l) -> c ∈ l -> card_id c = cardId ->
  S (length (filter (fun x => card_id x ≠ cardId) l)) = length l.
Proof.
  induction l as [|y l IH]; intros Hnodup Hin Hid.
  - by apply elem_of_nil in Hin.
  - rewrite fmap_cons in Hnodup. apply NoDup_cons in Hnodup as [Hy Hnodup].
    destruct (decide (card_id y = cardId)) as [Heq|Hne].
    + rewrite filter_cons_False by (intros H; by apply H). simpl. f_equal.
      assert (Forall (fun x => card_id x ≠ cardId) l) as Hall.
      { apply Forall_forall. intros z Hz Hzid. apply Hy.
        rewrite Heq, <- Hzid. by apply list_elem_of_fmap_2. }
      clear -Hall. induction Hall as [|z l Hz _ IHl]; [done|].
      rewrite filter_cons_True by done. simpl. by rewrite IHl.
    + rewrite filter_cons_True by done. simpl. f_equal.
      apply IH; [done| |done].
      apply elem_of_cons in Hin as [->|Hin]; [done|done].
Qed.

Lemma find_elem_of (cardId : string) (l : list Card) (c : Card) :
  find_ (fun x => card_id x = cardId) l = Some c -> c ∈ l /\ card_id c = cardId.
Proof.
  unfold find_. intros H. apply fmap_Some in H as ([i c'] & Hfind & ->).
  apply list_find_Some in Hfind as (Hc & Hid & _). split; [|done].
  by eapply list_elem_of_lookup_2.
Qed.

Lemma find_None_filter (cardId : string) (l : list Card) :
  find_ (fun x => card_id x = cardId) l = None ->
  filter (fun x => card_id x ≠ cardId) l = l.
Proof.
  unfold find_. intros H. apply fmap_None in H. apply list_find_None in H.
  induction H as [|z l Hz _ IH]; [done|].
  by rewrite filter_cons_True, IH.
Qed.

(** ** The store on [StorageService] *)

Section OnStorageService.
#[local] Existing Instance StorageService_adapter.

(** A save whose write fails still resolves, with the stored text as it
    was. *)
Lemma saveCard_write_fails card e :
  write_fails e ->
  exists out, settle (StorageService.saveCard card) e = (mkEnv (disk e) out, Resolved tt).
Proof.
  unfold write_fails. intros Hmode.
  destruct (ls_state (disk e)) eqn:Hstate; [done| |].
  - change (StorageService.saveCard card) with (perform (SaveCard card)).
    rewrite perform_unavailable by done. eauto.
  - destruct (perform_refused (SaveCard card) e Hstate eq_refl) as (out & [] & H).
    eauto.
Qed.

(** A read of the boards that fails resolves with the default. *)
Lemma loadBoards_read_fails_default e :
  boards_read_fails e ->
  exists out, settle StorageService.loadBoards e = (mkEnv (disk e) out, Resolved []).
Proof.
  intros Hfail.
  assert (settle StorageService.loadBoards e = StorageService.getData BOARDS [] e) as ->.
  { unfold settle, StorageService.loadBoards, async_fn, await, mbind, M_bind, mret, M_ret.
    by destruct (StorageService.getData BOARDS [] e) as [e1 [v|err]]. }
  destruct (ls_state (disk e)) eqn:Hstate.
  2: { rewrite getData_unavailable by done. eauto. }
  all: destruct Hfail as [Hfail|Hbad]; [congruence|].
  all: rewrite getData_available by congruence; simpl; rewrite Hbad; eauto.
Qed.

(** What [moveCard] leaves in memory, whatever the state of the store. *)
Lemma moveCard_mem w cardId sourceListId destListId destIndex now :
  let sourceCards := or_empty (cards (mem w) !! sourceListId) in
  let destCards := or_empty (cards (mem w) !! destListId) in
  mem (Store.run (Store.moveCard cardId sourceListId destListId destIndex now) w) =
    match find_ (fun c => card_id c = cardId) sourceCards with
    | None =>
        with_loading (with_error (Some "Card not found") (loading (mem w))) (mem w)
    | Some cardToMove =>
        with_cards
          (<[destListId :=
               Some (renumberCards
                       (splice_insert destIndex
                          (Store.movedCard cardToMove destListId now) destCards))]>
             (<[sourceListId :=
                  Some (renumberCards
                          (filter (fun c => card_id c ≠ cardId) sourceCards))]>
                (cards (mem w))))
          (mem w)
    end.
Proof.
  intros sourceCards destCards.
  unfold Store.moveCard. unfold_store. simpl. fold sourceCards destCards.
  destruct (find_ _ sourceCards) as [cardToMove|]; [|reflexivity].
  destruct w as [m [[mode bs ls cs] out]]; simpl.
  unfold_service; simpl.
  destruct mode; simpl; try destruct cs; reflexivity.
Qed.

(** The second of the two writes of [moveCard] is the one that stays: the
    stored cards are those read at the start with the destination list put
    in. *)
Lemma moveCard_working w cardId sourceListId destListId destIndex now cardToMove :
  working (env w) ->
  find_ (fun c => card_id c = cardId) (or_empty (cards (mem w) !! sourceListId))
    = Some cardToMove ->
  let updatedDestCards :=
    renumberCards
      (splice_insert destIndex (Store.movedCard cardToMove destListId now)
         (or_empty (cards (mem w) !! destListId))) in
  exists out,
    env (Store.run (Store.moveCard cardId sourceListId destListId destIndex now) w) =
      mkEnv (write_item CARDS
               (Text (cards_toJSON
                        (<[destListId := updatedDestCards]> (document CARDS ∅ (env w)))))
               (disk (env w))) out.
Proof.
  destruct w as [m [[mode bs ls cs] out]]; unfold working; simpl; intros -> Hfind.
  unfold document; simpl.
  unfold Store.moveCard. unfold_store. simpl. rewrite Hfind.
  destruct cs; unfold_service; simpl; eexists; reflexivity.
Qed.

End OnStorageService.

Section StoreClaims.
#[local] Existing Instance StorageService_adapter.

(** *** createCard *)

(** C3, as the code has it.  When the persistence write of [createCard]
    fails (the store is unavailable, or the write throws inside
    [setData]), for a list whose id is a plain key,
    [StorageService.saveCard] swallows the failure and resolves: the stored
    text is unchanged, the new card (the data, the new id, the former
    length of the list as its position, the two instants as its
    timestamps) is appended to the cards of its list in memory and the
    error slot is left empty.  (The cards in memory change only after
    [saveCard] has settled, and stay as they are when it rejects:
    [createCard_accepted], [createCard_rejected].) *)
Theorem createCard_write_fails w data newId createdNow updatedNow :
  write_fails (env w) ->
  plain_key (ccd_listId data) ->
  let old := or_empty (cards (mem w) !! ccd_listId data) in
  let card :=
    mkCard newId (ccd_title data) (ccd_description data) (ccd_listId data)
           (Z.of_nat (length old)) (TsDate (Some createdNow)) (TsDate (Some updatedNow)) in
  let w' := Store.run (Store.createCard data newId createdNow updatedNow) w in
  cards (mem w') = <[ccd_listId data := Some (old ++ [card])]> (cards (mem w)) /\
  loading_error (loading (mem w')) = None /\
  disk (env w') = disk (env w).
Proof.
  intros Hfail _ old card w'.
  destruct (saveCard_write_fails card (env w) Hfail) as [out Hsave].
  unfold w'.
  by rewrite (createCard_accepted (service := StorageService_adapter) w data newId createdNow updatedNow
                (mkEnv (disk (env w)) out) Hsave).
Qed.

Lemma createCard_write_fails_witness :
  cards (mem (Store.run (Store.createCard (mkCreateCardData "A" "" "l1") "c1" 3000 3000)
                (freshWorld Unavailable)))
    = <["l1" := Some [cardA]]> ∅.
Proof.
  apply (createCard_write_fails (freshWorld Unavailable) (mkCreateCardData "A" "" "l1")
           "c1" 3000 3000).
  - unfold write_fails; simpl; discriminate.
  - apply (bool_decide_unpack _). vm_compute. exact I.
Defined.

(** C3 as stated fails: on an unavailable store [createCard] changes the
    cards in memory and leaves the error slot empty. *)
Lemma createCard_not_persist_first :
  ~ (cards (mem (Store.run (Store.createCard (mkCreateCardData "A" "" "l1") "c1" 3000 3000)
                   (freshWorld Unavailable)))
       = cards (mem (freshWorld Unavailable)) /\
     exists message,
       loading_error
         (loading (mem (Store.run
                          (Store.createCard (mkCreateCardData "A" "" "l1") "c1" 3000 3000)
                          (freshWorld Unavailable))))
         = Some message /\ message <> "").
Proof. intros [_ (message & Hmessage & _)]. vm_compute in Hmessage. discriminate. Qed.

(** *** loadBoards *)

(** C8, as the code has it.  When the read of [loadBoards] fails (the
    store is unavailable, or the stored text does not parse),
    [StorageService.loadBoards] resolves with the default: the boards in
    memory are replaced by the empty collection and the error slot is left
    empty.  (The boards in memory are kept, and the error slot set, only
    when the service rejects: [loadBoards_rejected].) *)
Theorem loadBoards_read_fails w :
  boards_read_fails (env w) ->
  let w' := Store.run Store.loadBoards w in
  boards (mem w') = [] /\
  loading_error (loading (mem w')) = None /\
  loading_boards (loading (mem w')) = false.
Proof.
  intros Hfail w'.
  destruct (loadBoards_read_fails_default (env w) Hfail) as [out Hload].
  unfold w'. by rewrite (loadBoards_resolved (service := StorageService_adapter) w (mkEnv (disk (env w)) out) [] Hload).
Qed.

Lemma loadBoards_read_fails_witness :
  boards (mem (Store.run Store.loadBoards staleWorld)) = [].
Proof.
  apply (loadBoards_read_fails staleWorld). right. reflexivity.
Defined.

(** C8 as stated fails: the boards loaded earlier are gone after a
    [loadBoards] whose read fails, and no error is set. *)
Lemma loadBoards_not_stale_but_available :
  ~ (boards (mem (Store.run Store.loadBoards staleWorld)) = boards (mem staleWorld) /\
     exists message,
       loading_error (loading (mem (Store.run Store.loadBoards staleWorld))) = Some message).
Proof. intros [Hboards _]. vm_compute in Hboards. discriminate. Qed.

(** *** moveCard *)

(** C4 fails on the code.  With "l1" holding the cards X and Y and "l2" the
    card Z, in memory and in a working store, [moveCard] of X from "l1" to
    the head of "l2" succeeds and leaves in memory what the claim says: Y
    at position 0 in "l1", X (with "l2" as its [listId]) and Z at positions
    0 and 1 in "l2".  But the store does not follow: the two
    [updateCardPositions] both read the stored cards before either writes,
    so the write of "l1" is overwritten, the stored "l1" still holds X and
    Y, and after a reload X is in both lists, four cards where there were
    three.  And where a list holds an id twice, as "l1" does after a
    [moveCard] of X within "l1", the move to "l2" takes both cards out of
    "l1" and puts one into "l2": three cards become two. *)
Theorem moveCard_source_not_persisted :
  (card_id <$> or_empty (cards (mem twoLists) !! "l1") = ["x"; "y"] /\
   card_id <$> or_empty (cards (mem twoLists) !! "l2") = ["z"] /\
   card_id <$> StorageService.at_key (document CARDS ∅ (env twoLists)) "l1" = ["x"; "y"] /\
   card_id <$> StorageService.at_key (document CARDS ∅ (env twoLists)) "l2" = ["z"]) /\
  (loading_error (loading (mem afterMoveAcross)) = None /\
   cards (mem afterMoveAcross) !! "l1"
     = Some (Some [mkCard "y" "Y" "" "l1" 0 (TsDate (Some 4000)) (TsDate (Some 4000))]) /\
   cards (mem afterMoveAcross) !! "l2"
     = Some (Some [mkCard "x" "X" "" "l2" 0 (TsDate (Some 3000)) (TsDate (Some 6000));
                   mkCard "z" "Z" "" "l2" 1 (TsDate (Some 5000)) (TsDate (Some 5000))])) /\
  (card_id <$> StorageService.at_key (document CARDS ∅ (env afterMoveAcross)) "l1"
     = ["x"; "y"] /\
   card_id <$> StorageService.at_key (document CARDS ∅ (env afterMoveAcross)) "l2"
     = ["x"; "z"]) /\
  (card_id <$> or_empty (cards (mem afterMoveReloaded) !! "l1") = ["x"; "y"] /\
   card_id <$> or_empty (cards (mem afterMoveReloaded) !! "l2") = ["x"; "z"]) /\
  (card_id <$> or_empty (cards (mem duplicatedCard) !! "l1") = ["x"; "x"] /\
   card_id <$> or_empty (cards (mem duplicatedCard) !! "l2") = ["z"] /\
   card_id <$> or_empty (cards (mem (Store.run (Store.moveCard "x" "l1" "l2" 0 7000)
                                       duplicatedCard)) !! "l1") = [] /\
   card_id <$> or_empty (cards (mem (Store.run (Store.moveCard "x" "l1" "l2" 0 7000)
                                       duplicatedCard)) !! "l2") = ["x"; "z"]).
Proof. vm_compute. repeat split; reflexivity. Qed.

(** X25.  In memory, whatever the state of the store: for two distinct
    lists [L1] with the cards [[X; Y]] of different ids and [L2] with the
    cards [[Z]], [moveCard X.id L1 L2 0] leaves [[Y]] at position 0 in [L1]
    and [[X'; Z]] at positions 0 and 1 in [L2], where [X'] is [X] with [L2]
    as its [listId] and the instant of the move as its [updatedAt].
    Between two distinct lists with plain ids whose source holds distinct
    card ids, [moveCard] conserves the combined number of cards of the two
    lists. *)
Theorem moveCard_across_lists :
  (forall w X Y Z L1 L2 now,
      L1 <> L2 -> card_id X <> card_id Y ->
      cards (mem w) !! L1 = Some (Some [X; Y]) ->
      cards (mem w) !! L2 = Some (Some [Z]) ->
      let w' := Store.run (Store.moveCard (card_id X) L1 L2 0 now) w in
      cards (mem w') !! L1 =
        Some (Some [mkCard (card_id Y) (card_title Y) (card_description Y)
                           (card_listId Y) 0 (card_createdAt Y) (card_updatedAt Y)]) /\
      cards (mem w') !! L2 =
        Some (Some [mkCard (card_id X) (card_title X) (card_description X)
                           L2 0 (card_createdAt X) (TsDate (Some now));
                    mkCard (card_id Z) (card_title Z) (card_description Z)
                           (card_listId Z) 1 (card_createdAt Z) (card_updatedAt Z)])) /\
  (forall w cardId L1 L2 destIndex now,
      L1 <> L2 -> plain_key L1 -> plain_key L2 ->
      NoDup (card_id <$> or_empty (cards (mem w) !! L1)) ->
      let w' := Store.run (Store.moveCard cardId L1 L2 destIndex now) w in
      (length (or_empty (cards (mem w') !! L1)) +
       length (or_empty (cards (mem w') !! L2)) =
       length (or_empty (cards (mem w) !! L1)) +
       length (or_empty (cards (mem w) !! L2)))%nat).
Proof.
  split.
  - intros w X Y Z L1 L2 now HL HXY H1 H2 w'. unfold w'.
    rewrite moveCard_mem, H1, H2. simpl.
    unfold find_. simpl. rewrite decide_True by done. simpl.
    rewrite lookup_insert_ne, lookup_insert_eq, lookup_insert_eq by done.
    rewrite filter_cons_False by (intros H; by apply H).
    rewrite filter_cons_True by (intros H; by apply HXY).
    done.
  - intros w cardId L1 L2 destIndex now HL _ _ Hnodup w'. unfold w'.
    rewrite moveCard_mem.
    destruct (find_ _ _) as [c|] eqn:Hfind; simpl.
    + apply find_elem_of in Hfind as [Hin Hid].
      rewrite lookup_insert_ne, lookup_insert_eq, lookup_insert_eq by done. simpl.
      rewrite !renumberCards_length, length_splice_insert.
      pose proof (filter_out_unique_id cardId _ c Hnodup Hin Hid). lia.
    + done.
Qed.

Lemma moveCard_across_lists_witness :
  (cards (mem (Store.run (Store.moveCard "x" "l1" "l2" 0 6000) twoLists)) !! "l1"
     = Some (Some [mkCard "y" "Y" "" "l1" 0 (TsDate (Some 4000)) (TsDate (Some 4000))]) /\
   cards (mem (Store.run (Store.moveCard "x" "l1" "l2" 0 6000) twoLists)) !! "l2"
     = Some (Some [mkCard "x" "X" "" "l2" 0 (TsDate (Some 3000)) (TsDate (Some 6000));
                   mkCard "z" "Z" "" "l2" 1 (TsDate (Some 5000)) (TsDate (Some 5000))])) /\
  (length (or_empty (cards (mem (Store.run (Store.moveCard "y" "l1" "l2" 1 6000) twoLists))
                     !! "l1")) +
   length (or_empty (cards (mem (Store.run (Store.moveCard "y" "l1" "l2" 1 6000) twoLists))
                     !! "l2")) = 2 + 1)%nat.
Proof.
  split_and!.
  - apply (proj1 moveCard_across_lists twoLists cardX cardY cardZ "l1" "l2" 6000).
    + discriminate.
    + discriminate.
    + vm_compute. reflexivity.
    + vm_compute. reflexivity.
  - apply (proj1 moveCard_across_lists twoLists cardX cardY cardZ "l1" "l2" 6000).
    + discriminate.
    + discriminate.
    + vm_compute. reflexivity.
    + vm_compute. reflexivity.
  - apply (proj2 moveCard_across_lists twoLists "y" "l1" "l2" 1 6000).
    + discriminate.
    + apply (bool_decide_unpack _). vm_compute. exact I.
    + apply (bool_decide_unpack _). vm_compute. exact I.
    + apply (bool_decide_unpack _). vm_compute. exact I.
Defined.

(** C5, as the code has it.  [moveCard] does not compare [sourceListId]
    with [destListId].  Called with the same list on both sides, for a card
    of that list, it goes down the move-across path: the card stays where
    it is and an updated copy of it is inserted at [destIndex], so the list
    in memory is one longer and holds the id of the card once more than
    before, which is not a reorder of the list. *)
Theorem moveCard_same_list w cardId L destIndex now c :
  find_ (fun x => card_id x = cardId) (or_empty (cards (mem w) !! L)) = Some c ->
  let old := or_empty (cards (mem w) !! L) in
  let w' := Store.run (Store.moveCard cardId L L destIndex now) w in
  let new := or_empty (cards (mem w') !! L) in
  new = renumberCards (splice_insert destIndex (Store.movedCard c L now) old) /\
  card_id <$> new = splice_insert destIndex cardId (card_id <$> old) /\
  length new = S (length old) /\
  ~ NoDup (card_id <$> new).
Proof.
  intros Hfind old w' new.
  assert (new = renumberCards (splice_insert destIndex (Store.movedCard c L now) old))
    as Hnew.
  { unfold new, w'. rewrite moveCard_mem, Hfind. simpl. by rewrite lookup_insert_eq. }
  apply find_elem_of in Hfind as [Hin Hid].
  assert (card_id <$> new = splice_insert destIndex cardId (card_id <$> old)) as Hids.
  { rewrite Hnew, renumberCards_ids, splice_insert_fmap. simpl. by rewrite Hid. }
  split_and!; [done|done| |].
  - by rewrite Hnew, renumberCards_length, length_splice_insert.
  - rewrite Hids. apply splice_insert_duplicate.
    rewrite <- Hid. by apply list_elem_of_fmap_2.
Qed.

Lemma moveCard_same_list_witness :
  length (or_empty (cards (mem (Store.run (Store.moveCard "c1" "l1" "l1" 1 6000)
                                  boardWithTwoCards)) !! "l1")) = 3%nat.
Proof.
  apply (moveCard_same_list boardWithTwoCards "c1" "l1" 1 6000 cardA).
  reflexivity.
Defined.

(** C5 as stated fails: after [moveCard] within one list the card is there
    twice, and the list is not what [reorderCards] gives. *)
Lemma moveCard_same_list_not_reorder :
  ~ (length (filter (fun c => card_id c = "c1")
               (or_empty (cards (mem (Store.run (Store.moveCard "c1" "l1" "l1" 1 6000)
                                        boardWithTwoCards)) !! "l1"))) = 1%nat /\
     cards (mem (Store.run (Store.moveCard "c1" "l1" "l1" 1 6000) boardWithTwoCards)) !! "l1"
       = cards (mem (Store.run (Store.reorderCards "l1" 0 1) boardWithTwoCards)) !! "l1").
Proof. intros [Honce _]. vm_compute in Honce. discriminate. Qed.

(** *** deleteBoard *)

(** C1 fails on the code.  Deleting the board "b1", which has the list
    "l1" with two cards, succeeds and removes the board and its lists from
    memory and from the store, but both cards of "l1" stay, in memory and
    in the store: [deleteBoardData] reads the lists of the board after it
    has deleted them, and the store action does not touch [cards]. *)
Theorem deleteBoard_leaves_cards :
  loading_error (loading (mem afterDeleteBoard)) = None /\
  boards (mem afterDeleteBoard) = [] /\
  document BOARDS [] (env afterDeleteBoard) = [] /\
  or_empty (lists (mem afterDeleteBoard) !! "b1") = [] /\
  document LISTS ∅ (env afterDeleteBoard) !! "b1" = None /\
  card_id <$> or_empty (cards (mem afterDeleteBoard) !! "l1") = ["c1"; "c2"] /\
  card_listId <$> or_empty (cards (mem afterDeleteBoard) !! "l1") = ["l1"; "l1"] /\
  card_id <$> StorageService.at_key (document CARDS ∅ (env afterDeleteBoard)) "l1"
    = ["c1"; "c2"].
Proof. vm_compute. repeat split; reflexivity. Qed.

(** *** deleteCard *)

(** C2 fails on the code.  After the card at position 0 of a list of two
    is deleted, the remaining card keeps position 1: [deleteCard] filters
    and does not renumber.  A card created next gets the length of the
    list, 1, as its position, a duplicate. *)
Theorem deleteCard_leaves_gap :
  dense_set (cardPositions (or_empty (cards (mem boardWithTwoCards) !! "l1"))) /\
  cardPositions (or_empty (cards (mem afterDeleteCard) !! "l1")) = [1] /\
  ~ dense_set (cardPositions (or_empty (cards (mem afterDeleteCard) !! "l1"))) /\
  cardPositions (or_empty (cards (mem afterDeleteThenCreate) !! "l1")) = [1; 1].
Proof.
  split_and!.
  - apply dense_dense_set. reflexivity.
  - reflexivity.
  - intros [_ Hrange].
    assert (0 <= 1 < 1) as Hbad; [|lia].
    apply Hrange. vm_compute. left.
  - reflexivity.
Qed.

(** *** Timestamps after a reload *)

(** C7 fails on the code.  The boards come back from the store with
    [Date] timestamps equal to those saved, but the lists and the cards
    come back with their timestamps as text: [getData] revives the dates
    only of a document that is an array, and the lists and cards documents
    are objects keyed by the parent id. *)
Theorem reload_leaves_text_timestamps :
  board_createdAt <$> boards (mem boardWithTwoCards) = [TsDate (Some 1000)] /\
  board_createdAt <$> boards (mem reloaded) = [TsDate (Some 1000)] /\
  list_createdAt <$> or_empty (lists (mem boardWithTwoCards) !! "b1") = [TsDate (Some 2000)] /\
  list_createdAt <$> or_empty (lists (mem reloaded) !! "b1") = [TsIso 2000] /\
  card_createdAt <$> or_empty (cards (mem boardWithTwoCards) !! "l1")
    = [TsDate (Some 3000); TsDate (Some 4000)] /\
  card_createdAt <$> or_empty (cards (mem reloaded) !! "l1") = [TsIso 3000; TsIso 4000] /\
  card_updatedAt <$> or_empty (cards (mem reloaded) !! "l1") = [TsIso 3000; TsIso 4000] /\
  Forall (fun c => ~ is_Date (card_createdAt c)) (or_empty (cards (mem reloaded) !! "l1")).
Proof.
  split_and!; try reflexivity.
  vm_compute. repeat constructor; auto.
Qed.

(** *** What else holds of these actions *)

(** A board saved to an empty working store and loaded back has the
    [Date] timestamps it was saved with; an [updatedAt] that is missing
    stays missing. *)
Lemma board_revived (b : Board) (t : Z) :
  board_createdAt b = TsDate (Some t) ->
  board_updatedAt b = TsUndef \/ (exists u, board_updatedAt b = TsDate (Some u)) ->
  (settle (StorageService.saveBoard b);; settle StorageService.loadBoards)
    (emptyEnv Working)
  = (mkEnv (mkLocalStorage Working (Text [board_toJSON b]) NoItem NoItem) [],
     Resolved [b]).
Proof.
  destruct b as [i ti d c u col]; simpl.
  intros -> [->|[u' ->]]; reflexivity.
Qed.

(** [reorderCards] and [moveCard] renumber: the lists they write have dense
    positions. *)
Lemma reorderCards_dense w listId startIndex endIndex :
  dense (cardPositions
           (or_empty (cards (mem (Store.run (Store.reorderCards listId startIndex endIndex) w))
                      !! listId))).
Proof.
  assert (cards (mem (Store.run (Store.reorderCards listId startIndex endIndex) w)) !! listId
          = Some (Some (renumberCards
                          (Utils.reorder (or_empty (cards (mem w) !! listId))
                             startIndex endIndex)))) as ->.
  { unfold Store.reorderCards. unfold_store. simpl.
    destruct w as [m [[mode bs ls cs] out]]; simpl.
    unfold_service; simpl.
    destruct mode; simpl; try destruct cs; simpl; by rewrite lookup_insert_eq. }
  apply renumberCards_dense.
Qed.

Lemma moveCard_dense w cardId L1 L2 destIndex now c :
  L1 <> L2 ->
  find_ (fun x => card_id x = cardId) (or_empty (cards (mem w) !! L1)) = Some c ->
  let w' := Store.run (Store.moveCard cardId L1 L2 destIndex now) w in
  dense (cardPositions (or_empty (cards (mem w') !! L1))) /\
  dense (cardPositions (or_empty (cards (mem w') !! L2))).
Proof.
  intros HL Hfind w'. unfold w'. rewrite moveCard_mem, Hfind. simpl.
  rewrite lookup_insert_ne, lookup_insert_eq, lookup_insert_eq by done. simpl.
  split; apply renumberCards_dense.
Qed.

(** The two [updateCardPositions] of [moveCard] both read the stored cards
    before either writes, and the second write is made from what was read
    before the first: the stored copy of the source list still holds the
    moved card. *)
Lemma moveCard_stored_source_unchanged :
  card_id <$> or_empty (cards (mem afterMoveAcross) !! "l1") = ["y"] /\
  card_id <$> or_empty (cards (mem afterMoveAcross) !! "l2") = ["x"; "z"] /\
  card_id <$> StorageService.at_key (document CARDS ∅ (env afterMoveAcross)) "l1"
    = ["x"; "y"] /\
  card_id <$> StorageService.at_key (document CARDS ∅ (env afterMoveAcross)) "l2"
    = ["x"; "z"].
Proof. vm_compute. repeat split; reflexivity. Qed.

(** The board view sends a drop of a card on its own list to
    [reorderCards]; it never calls [moveCard] with the same list on both
    sides for such a drop. *)
Lemma handleDragEnd_same_list boardId (a o : BoardView.Draggable) now w :
  BoardView.dnd_id a <> BoardView.dnd_id o ->
  BoardView.dnd_type a = Some "card" ->
  let L := BoardView.or_else (BoardView.dnd_listId o) (BoardView.dnd_id o) in
  BoardView.dnd_listId a = Some L ->
  let listCards := or_empty (cards (mem w) !! L) in
  let oldIndex := findIndex (fun card => card_id card = BoardView.dnd_id a) listCards in
  let newIndex := findIndex (fun card => card_id card = BoardView.dnd_id o) listCards in
  BoardView.handleDragEnd boardId (BoardView.mkDragEndEvent a (Some o)) now w =
    if decide (oldIndex <> newIndex) then Store.reorderCards L oldIndex newIndex w
    else (w, Resolved tt).
Proof.
  intros Hid Htype L HL listCards oldIndex newIndex.
  unfold BoardView.handleDragEnd. unfold_store. simpl.
  rewrite decide_False by done.
  rewrite decide_False by (rewrite Htype; discriminate).
  rewrite decide_True by done.
  fold L. rewrite decide_True by done.
  fold listCards oldIndex newIndex.
  by destruct (decide (oldIndex <> newIndex)).
Qed.

End StoreClaims.

(** * More of [StorageService] *)

(** ** Stored documents stay text *)

Lemma json_cards_insert doc k cs :
  json_cards doc -> Forall json_card cs -> json_cards (<[k := cs]> doc).
Proof. intros Hdoc Hcs. by apply map_Forall_insert_2. Qed.

Lemma json_cards_delete doc k : json_cards doc -> json_cards (delete k doc).
Proof. apply map_Forall_delete. Qed.

Lemma json_lists_insert doc k ls :
  json_lists doc -> Forall json_list ls -> json_lists (<[k := ls]> doc).
Proof. intros Hdoc Hls. by apply map_Forall_insert_2. Qed.

Lemma json_lists_delete doc k : json_lists doc -> json_lists (delete k doc).
Proof. apply map_Forall_delete. Qed.

Lemma card_toJSON_json c : json_card (card_toJSON c).
Proof. destruct c as [i t d l p [[?|]| | |] [[?|]| | |]]; by split. Qed.

Lemma list_toJSON_json l : json_list (list_toJSON l).
Proof. by destruct l as [i t b p [[?|]| | |]]. Qed.

Lemma cards_toJSON_json doc : json_cards (cards_toJSON doc).
Proof.
  intros k cs. unfold cards_toJSON. rewrite lookup_fmap.
  intros (cs' & _ & ->)%fmap_Some. apply Forall_fmap, Forall_forall.
  intros c _. apply card_toJSON_json.
Qed.

Lemma lists_toJSON_json doc : json_lists (lists_toJSON doc).
Proof.
  intros k ls. unfold lists_toJSON. rewrite lookup_fmap.
  intros (ls' & _ & ->)%fmap_Some. apply Forall_fmap, Forall_forall.
  intros l _. apply list_toJSON_json.
Qed.

Lemma Forall_filter_keep {A} (P Q : A -> Prop) `{!forall x, Decision (Q x)} (l : list A) :
  Forall P l -> Forall P (filter Q l).
Proof.
  rewrite !Forall_forall. intros Hall x [_ Hx]%list_elem_of_filter. by apply Hall.
Qed.

(** Filtering by id commutes with a re-encoding that keeps the ids. *)
Lemma filter_fmap_id {A} (id : A -> string) (f : A -> A) (k : string) (l : list A) :
  (forall x, id (f x) = id x) ->
  filter (fun x => id x ≠ k) (f <$> l) = f <$> filter (fun x => id x ≠ k) l.
Proof.
  intros Hf. induction l as [|x l IH]; [done|].
  rewrite fmap_cons. destruct (decide (id x = k)) as [Heq|Hne].
  - rewrite !filter_cons_False; [done|intros H; by apply H|].
    intros H; apply H. by rewrite Hf.
  - rewrite !filter_cons_True; [|done|by rewrite Hf].
    by rewrite fmap_cons, IH.
Qed.

(** An upsert under an id that is not there appends. *)
Lemma upsert_fresh {A} (id : A -> string) (x : A) (l : list A) :
  id x ∉ id <$> l -> upsert id x l = l ++ [x].
Proof.
  intros Hfresh. unfold upsert, findIndex.
  destruct (list_find (fun y => id y = id x) l) as [[i y]|] eqn:Hfind; [|done].
  apply list_find_Some in Hfind as (Hy & Hid & _).
  destruct Hfresh. rewrite <- Hid. eapply list_elem_of_fmap_2, list_elem_of_lookup_2. eauto.
Qed.

(** An upsert seen through a re-encoding that keeps the ids. *)
Lemma upsert_fmap {A} (id : A -> string) (f : A -> A) (x : A) (l : list A) :
  (forall y, id (f y) = id y) ->
  f <$> upsert id x l = upsert id (f x) (f <$> l).
Proof.
  intros Hf. unfold upsert, findIndex. rewrite list_find_fmap.
  rewrite (list_find_ext ((fun y => id y = id (f x)) ∘ f)
            (fun y => id y = id x))
    by (intros y; simpl; by rewrite !Hf).
  destruct (list_find (fun y => id y = id x) l) as [[i y]|]; simpl.
  - destruct (Z.leb_spec 0 (Z.of_nat i)); [|lia].
    unfold assign_at. by rewrite list_fmap_insert.
  - by rewrite fmap_app.
Qed.

(** ** What a call leaves in a working store *)

Lemma loadBoards_available e :
  ls_state (disk e) <> Unavailable ->
  exists out,
    settle StorageService.loadBoards e =
      (mkEnv (disk e) out, Resolved (revive_board <$> document BOARDS [] e)).
Proof.
  destruct e as [[mode bs ls cs] out]; simpl; intros Hmode.
  unfold document; simpl.
  destruct mode; [|done|]; destruct bs; unfold_service; simpl; eexists; reflexivity.
Qed.

Lemma loadLists_available e :
  ls_state (disk e) <> Unavailable ->
  exists out,
    settle StorageService.loadLists e =
      (mkEnv (disk e) out, Resolved (document LISTS ∅ e)).
Proof.
  destruct e as [[mode bs ls cs] out]; simpl; intros Hmode.
  unfold document; simpl.
  destruct mode; [|done|]; destruct ls; unfold_service; simpl; eexists; reflexivity.
Qed.

Lemma loadCards_available e :
  ls_state (disk e) <> Unavailable ->
  exists out,
    settle StorageService.loadCards e =
      (mkEnv (disk e) out, Resolved (document CARDS ∅ e)).
Proof.
  destruct e as [[mode bs ls cs] out]; simpl; intros Hmode.
  unfold document; simpl.
  destruct mode; [|done|]; destruct cs; unfold_service; simpl; eexists; reflexivity.
Qed.

Lemma deleteCard_working cardId listId e :
  working e ->
  let doc := document CARDS ∅ e in
  let filteredCards :=
    filter (fun c => card_id c ≠ cardId) (StorageService.at_key doc listId) in
  exists out,
    settle (StorageService.deleteCard cardId listId) e =
      (mkEnv (write_item CARDS
                (Text (cards_toJSON
                         (if decide (length filteredCards = 0%nat) then delete listId doc
                          else <[listId := filteredCards]> doc)))
                (disk e)) out,
       Resolved tt).
Proof.
  destruct e as [[mode bs ls cs] out]; unfold working; simpl; intros ->.
  unfold document; simpl. destruct cs; unfold_service; simpl; eexists; reflexivity.
Qed.

Lemma deleteList_working listId boardId e :
  working e ->
  let ldoc := document LISTS ∅ e in
  let filteredLists :=
    filter (fun l => list_id l ≠ listId) (StorageService.at_key ldoc boardId) in
  exists out,
    settle (StorageService.deleteList listId boardId) e =
      (mkEnv (mkLocalStorage Working (trello_boards (disk e))
                (Text (lists_toJSON
                         (if decide (length filteredLists = 0%nat) then delete boardId ldoc
                          else <[boardId := filteredLists]> ldoc)))
                (Text (cards_toJSON (delete listId (document CARDS ∅ e))))) out,
       Resolved tt).
Proof.
  destruct e as [[mode bs ls cs] out]; unfold working; simpl; intros ->.
  unfold document; simpl.
  destruct ls, cs; unfold_service; simpl; eexists; reflexivity.
Qed.

Lemma deleteBoard_working boardId e :
  working e ->
  exists out,
    settle (StorageService.deleteBoard boardId) e =
      (mkEnv (mkLocalStorage Working
                (Text (boards_toJSON
                         (filter (fun b => board_id b ≠ boardId)
                                 (revive_board <$> document BOARDS [] e))))
                (Text (lists_toJSON (delete boardId (document LISTS ∅ e))))
                (Text (cards_toJSON (document CARDS ∅ e)))) out,
       Resolved tt).
Proof.
  destruct e as [[mode bs ls cs] out]; unfold working; simpl; intros ->.
  unfold document; simpl.
  destruct bs, ls, cs; unfold_service; simpl;
    unfold StorageService.at_key; rewrite ?lookup_delete_eq; simpl;
    eexists; reflexivity.
Qed.

Lemma updateCardPositions_working listId cs e :
  working e ->
  exists out,
    settle (StorageService.updateCardPositions listId cs) e =
      (mkEnv (write_item CARDS
                (Text (cards_toJSON (<[listId := cs]> (document CARDS ∅ e)))) (disk e)) out,
       Resolved tt).
Proof.
  destruct e as [[mode bs ls cds] out]; unfold working; simpl; intros ->.
  unfold document; simpl. destruct cds; unfold_service; simpl; eexists; reflexivity.
Qed.

Lemma cards_written_insert doc k cs :
  json_cards doc -> Forall json_card cs ->
  cards_toJSON (<[k := cs]> doc) = <[k := cs]> doc.
Proof. intros Hdoc Hcs. by apply json_cards_fixed, json_cards_insert. Qed.

Lemma lists_written_insert doc k ls :
  json_lists doc -> Forall json_list ls ->
  lists_toJSON (<[k := ls]> doc) = <[k := ls]> doc.
Proof. intros Hdoc Hls. by apply json_lists_fixed, json_lists_insert. Qed.

Lemma at_key_delete {A} (doc : gmap string (list A)) k :
  StorageService.at_key (delete k doc) k = [].
Proof. unfold StorageService.at_key. by rewrite lookup_delete_eq. Qed.

Lemma document_boards_text mode doc ls cs out :
  document BOARDS [] (mkEnv (mkLocalStorage mode (Text doc) ls cs) out) = doc.
Proof. reflexivity. Qed.

Lemma document_lists_text mode bs doc cs out :
  document LISTS ∅ (mkEnv (mkLocalStorage mode bs (Text doc) cs) out) = doc.
Proof. reflexivity. Qed.

Lemma document_cards_text mode bs ls doc out :
  document CARDS ∅ (mkEnv (mkLocalStorage mode bs ls (Text doc)) out) = doc.
Proof. reflexivity. Qed.

(** ** Deleting from the store *)

(** X2.  On a working store whose documents are text (they hold no [Date]),
    [StorageService.deleteCard], for a list id that is a plain key, takes
    every card with the given id out of the stored list and leaves the other
    cards of the list in their order; when no card is left the key of the
    list is removed from the document.  The other lists, the boards and the
    lists document are not touched. *)
Theorem storage_deleteCard e cardId listId :
  plain_key listId ->
  working e ->
  json_cards (document CARDS ∅ e) ->
  exists e',
    settle (StorageService.deleteCard cardId listId) e = (e', Resolved tt) /\
    StorageService.at_key (document CARDS ∅ e') listId
      = filter (fun c => card_id c ≠ cardId)
               (StorageService.at_key (document CARDS ∅ e) listId) /\
    (StorageService.at_key (document CARDS ∅ e') listId = [] ->
       document CARDS ∅ e' !! listId = None) /\
    (forall k, k <> listId -> document CARDS ∅ e' !! k = document CARDS ∅ e !! k) /\
    trello_boards (disk e') = trello_boards (disk e) /\
    trello_lists (disk e') = trello_lists (disk e).
Proof.
  intros _ Hworking Hjson.
  destruct (deleteCard_working cardId listId e Hworking) as [out ->].
  eexists. split; [reflexivity|].
  rewrite !document_written.
  set (doc := document CARDS ∅ e) in *.
  set (filtered := filter _ (StorageService.at_key doc listId)).
  assert (Forall json_card filtered) as Hfiltered
    by (by apply Forall_filter_keep, at_key_Forall).
  destruct (decide (length filtered = 0%nat)) as [Hlen|Hlen].
  - rewrite json_cards_fixed by (by apply json_cards_delete).
    apply nil_length_inv in Hlen.
    split_and!; [by rewrite at_key_delete, Hlen| |
                 by intros k Hk; rewrite lookup_delete_ne|done|done].
    intros _. apply lookup_delete_eq.
  - rewrite cards_written_insert by done.
    split_and!; [by rewrite at_key_insert| |
                 by intros k Hk; rewrite lookup_insert_ne|done|done].
    rewrite at_key_insert. intros Hnil. by rewrite Hnil in Hlen.
Qed.

Lemma storage_deleteCard_witness :
  exists e',
    settle (StorageService.deleteCard "c1" "l1") (env boardWithTwoCards)
      = (e', Resolved tt) /\
    card_id <$> StorageService.at_key (document CARDS ∅ e') "l1" = ["c2"].
Proof.
  destruct (storage_deleteCard (env boardWithTwoCards) "c1" "l1")
    as (e' & Hrun & Hlist & _).
  - apply (bool_decide_unpack _). vm_compute. exact I.
  - vm_compute. reflexivity.
  - apply (bool_decide_unpack _). vm_compute. exact I.
  - exists e'. split; [exact Hrun|]. rewrite Hlist. vm_compute. reflexivity.
Defined.

(** X3.  On a working store whose documents are text (they hold no [Date]),
    [StorageService.deleteList], for a board id that is a plain key, takes
    the list out of the stored lists of its board (removing the key of the
    board when no list is left) and removes the key of the list, with all
    its cards, from the stored cards.  The lists of the other boards, the
    cards of the other lists and the boards are not touched. *)
Theorem storage_deleteList_cascades e listId boardId :
  plain_key boardId ->
  working e ->
  json_lists (document LISTS ∅ e) ->
  json_cards (document CARDS ∅ e) ->
  exists e',
    settle (StorageService.deleteList listId boardId) e = (e', Resolved tt) /\
    StorageService.at_key (document LISTS ∅ e') boardId
      = filter (fun l => list_id l ≠ listId)
               (StorageService.at_key (document LISTS ∅ e) boardId) /\
    (forall k, k <> boardId -> document LISTS ∅ e' !! k = document LISTS ∅ e !! k) /\
    document CARDS ∅ e' !! listId = None /\
    (forall k, k <> listId -> document CARDS ∅ e' !! k = document CARDS ∅ e !! k) /\
    trello_boards (disk e') = trello_boards (disk e).
Proof.
  intros _ Hworking Hlists Hcards.
  destruct (deleteList_working listId boardId e Hworking) as [out ->].
  eexists. split; [reflexivity|].
  rewrite !document_lists_text, !document_cards_text.
  set (ldoc := document LISTS ∅ e) in *.
  set (filtered := filter _ (StorageService.at_key ldoc boardId)).
  assert (Forall json_list filtered) as Hfiltered
    by (by apply Forall_filter_keep, at_key_Forall).
  rewrite (json_cards_fixed (delete _ _)) by (by apply json_cards_delete).
  split_and!; [| |apply lookup_delete_eq|by intros k Hk; rewrite lookup_delete_ne|done].
  - destruct (decide (length filtered = 0%nat)) as [Hlen|Hlen].
    + rewrite json_lists_fixed by (by apply json_lists_delete).
      apply nil_length_inv in Hlen. by rewrite at_key_delete, Hlen.
    + rewrite lists_written_insert by done. by rewrite at_key_insert.
  - intros k Hk. destruct (decide (length filtered = 0%nat)).
    + rewrite json_lists_fixed by (by apply json_lists_delete).
      by rewrite lookup_delete_ne.
    + rewrite lists_written_insert by done. by rewrite lookup_insert_ne.
Qed.

Lemma storage_deleteList_cascades_witness :
  exists e',
    settle (StorageService.deleteList "l1" "b1") (env twoLists) = (e', Resolved tt) /\
    document CARDS ∅ e' !! "l1" = None /\
    list_id <$> StorageService.at_key (document LISTS ∅ e') "b1" = ["l2"].
Proof.
  destruct (storage_deleteList_cascades (env twoLists) "l1" "b1")
    as (e' & Hrun & Hlists & _ & Hcards & _).
  - apply (bool_decide_unpack _). vm_compute. exact I.
  - vm_compute. reflexivity.
  - apply (bool_decide_unpack _). vm_compute. exact I.
  - apply (bool_decide_unpack _). vm_compute. exact I.
  - exists e'. split; [exact Hrun|]. split; [exact Hcards|].
    rewrite Hlists. vm_compute. reflexivity.
Defined.

(** X4.  On a working store whose documents are text (they hold no [Date]),
    [StorageService.deleteBoard], for a board id that is a plain key, takes
    every board with the given id out of the stored boards and removes the
    key of the board from the stored lists, but leaves the stored cards as
    they are: no card is removed, whichever lists the board had. *)
Theorem storage_deleteBoard_keeps_cards e boardId :
  plain_key boardId ->
  working e ->
  Forall stored_board (document BOARDS [] e) ->
  json_lists (document LISTS ∅ e) ->
  json_cards (document CARDS ∅ e) ->
  exists e',
    settle (StorageService.deleteBoard boardId) e = (e', Resolved tt) /\
    document BOARDS [] e'
      = filter (fun b => board_id b ≠ boardId) (document BOARDS [] e) /\
    document LISTS ∅ e' = delete boardId (document LISTS ∅ e) /\
    document CARDS ∅ e' = document CARDS ∅ e.
Proof.
  intros _ Hworking Hboards Hlists Hcards.
  destruct (deleteBoard_working boardId e Hworking) as [out ->].
  eexists. split; [reflexivity|].
  rewrite document_boards_text, document_lists_text, document_cards_text.
  rewrite json_cards_fixed by done.
  rewrite json_lists_fixed by (by apply json_lists_delete).
  split_and!; [|done|done].
  unfold boards_toJSON.
  rewrite (filter_fmap_id board_id revive_board) by done.
  by rewrite stored_board_fixed by (by apply Forall_filter_keep).
Qed.

Lemma storage_deleteBoard_keeps_cards_witness :
  exists e',
    settle (StorageService.deleteBoard "b1") (env boardWithTwoCards) = (e', Resolved tt) /\
    document BOARDS [] e' = [] /\
    card_id <$> StorageService.at_key (document CARDS ∅ e') "l1" = ["c1"; "c2"].
Proof.
  destruct (storage_deleteBoard_keeps_cards (env boardWithTwoCards) "b1")
    as (e' & Hrun & Hboards & _ & Hcards).
  - apply (bool_decide_unpack _). vm_compute. exact I.
  - vm_compute. reflexivity.
  - vm_compute. constructor; [|constructor].
    split; [eexists; reflexivity | right; eexists; reflexivity].
  - apply (bool_decide_unpack _). vm_compute. exact I.
  - apply (bool_decide_unpack _). vm_compute. exact I.
  - exists e'. split; [exact Hrun|]. rewrite Hboards, Hcards.
    split; vm_compute; reflexivity.
Defined.

(** ** Clearing and reading back *)

(** X5.  After [clearAllData] on a store that passes the availability
    probe, the three loads resolve with their empty collections, whatever
    was stored before, also text that did not parse.  On an unavailable
    store [clearAllData] does nothing at all. *)
Theorem clearAllData_then_loads e :
  (ls_state (disk e) <> Unavailable ->
   exists e',
     (settle StorageService.clearAllData;;
      bs ← settle StorageService.loadBoards;
      ls ← settle StorageService.loadLists;
      cs ← settle StorageService.loadCards;
      mret (bs, ls, cs)) e = (e', Resolved ([], ∅, ∅)) /\
     disk e' = mkLocalStorage (ls_state (disk e)) NoItem NoItem NoItem /\
     console e' = console e) /\
  (ls_state (disk e) = Unavailable ->
   settle StorageService.clearAllData e = (e, Resolved tt)).
Proof.
  destruct e as [[mode bs ls cs] out]; simpl. split.
  - intros Hmode. destruct mode; [|done|]; eexists; split_and!; reflexivity.
  - intros ->. reflexivity.
Qed.

Lemma clearAllData_then_loads_witness :
  exists e',
    (settle StorageService.clearAllData;;
     bs ← settle StorageService.loadBoards;
     ls ← settle StorageService.loadLists;
     cs ← settle StorageService.loadCards;
     mret (bs, ls, cs)) (env boardWithTwoCards) = (e', Resolved ([], ∅, ∅)) /\
    settle StorageService.clearAllData (emptyEnv Unavailable)
      = (emptyEnv Unavailable, Resolved tt).
Proof.
  destruct (proj1 (clearAllData_then_loads (env boardWithTwoCards))) as (e' & Hrun & _).
  - discriminate.
  - exists e'. split; [exact Hrun|].
    apply (proj2 (clearAllData_then_loads (emptyEnv Unavailable))). reflexivity.
Defined.

Lemma json_ts_no_Date v : json_ts v -> ~ is_Date v.
Proof. unfold json_ts. destruct v as [[t|]|t| |]; simpl; [discriminate|discriminate|tauto..]. Qed.

(** X6.  On a working store whose documents are text (they hold no [Date]),
    what [loadCards] resolves with after a [saveCard] of a card whose
    [listId] is a plain key holds no [Date]: no timestamp of any card is a
    [Date].  The cards of the list of the saved card are those that were
    stored with the saved card, in its JSON encoding, upserted by id: put in
    the place of the first card with its id, or added at the end. *)
Theorem saveCard_then_loadCards e card :
  plain_key (card_listId card) ->
  working e ->
  json_cards (document CARDS ∅ e) ->
  exists e' loaded,
    (settle (StorageService.saveCard card);; settle StorageService.loadCards) e
      = (e', Resolved loaded) /\
    map_Forall
      (fun _ cs =>
         Forall (fun c => ~ is_Date (card_createdAt c) /\ ~ is_Date (card_updatedAt c)) cs)
      loaded /\
    is_upsert card_id (card_toJSON card)
      (StorageService.at_key (document CARDS ∅ e) (card_listId card))
      (StorageService.at_key loaded (card_listId card)) /\
    card_toJSON card ∈ StorageService.at_key loaded (card_listId card).
Proof.
  intros _ Hworking Hjson.
  destruct (saveCard_working card e Hworking) as [out Hsave].
  set (old := StorageService.at_key (document CARDS ∅ e) (card_listId card)) in *.
  set (e1 := mkEnv _ out) in Hsave.
  destruct (loadCards_available e1) as [out' Hload].
  { unfold e1. simpl. destruct e as [[mode bs ls cs] o]. unfold working in Hworking.
    simpl in *. by subst. }
  exists (mkEnv (disk e1) out'), (document CARDS ∅ e1). split.
  { unfold mbind, M_bind. by rewrite Hsave, Hload. }
  unfold e1. rewrite document_written.
  assert (card_toJSON <$> upsert card_id card old
          = upsert card_id (card_toJSON card) old) as Hupsert.
  { rewrite (upsert_fmap card_id card_toJSON) by done.
    by rewrite json_card_fixed by (by apply at_key_Forall). }
  split.
  { pose proof (cards_toJSON_json
                  (<[card_listId card := upsert card_id card old]> (document CARDS ∅ e)))
      as Htext.
    intros k cs Hk. specialize (Htext k cs Hk). simpl in Htext.
    eapply Forall_impl; [exact Htext|].
    intros c [Hcreated Hupdated]. split; by apply json_ts_no_Date. }
  unfold cards_toJSON. rewrite fmap_insert. rewrite at_key_insert, Hupsert.
  split; [apply upsert_is_upsert|].
  destruct (upsert_is_upsert card_id (card_toJSON card) old)
    as [(i & y & _ & _ & _ & _ & Hx & _)|[_ ->]].
  - by eapply list_elem_of_lookup_2.
  - apply elem_of_app. right. left.
Qed.

Lemma saveCard_then_loadCards_witness :
  exists e' loaded,
    (settle (StorageService.saveCard cardA_edited);; settle StorageService.loadCards)
      (env boardWithTwoCards) = (e', Resolved loaded) /\
    card_toJSON cardA_edited ∈ StorageService.at_key loaded "l1".
Proof.
  destruct (saveCard_then_loadCards (env boardWithTwoCards) cardA_edited)
    as (e' & loaded & Hrun & _ & _ & Hin).
  - apply (bool_decide_unpack _). vm_compute. exact I.
  - vm_compute. reflexivity.
  - apply (bool_decide_unpack _). vm_compute. exact I.
  - exists e', loaded. split; [exact Hrun | exact Hin].
Defined.

(** * More of the store *)

Section StoreOnWorkingStorage.
#[local] Existing Instance StorageService_adapter.

(** ** What an action leaves behind on a working store *)

(** Runs an action of the store over a world taken apart. *)
Local Ltac run_action w :=
  destruct w as [m [[mode bs ls cs] out]]; unfold working; simpl; intros ->;
  unfold document; simpl.


Lemma createCard_working w data newId createdNow updatedNow :
  working (env w) ->
  let listId := ccd_listId data in
  let old := or_empty (cards (mem w) !! listId) in
  let card := Store.newCard data newId old createdNow updatedNow in
  let doc := document CARDS ∅ (env w) in
  exists out,
    Store.run (Store.createCard data newId createdNow updatedNow) w =
      mkWorld
        (with_loading (mkLoading (loading_boards (loading (mem w))) false None)
           (with_cards (<[listId := Some (old ++ [card])]> (cards (mem w))) (mem w)))
        (mkEnv (write_item CARDS
                  (Text (cards_toJSON
                           (<[listId := upsert card_id card
                                          (StorageService.at_key doc listId)]> doc)))
                  (disk (env w))) out).
Proof.
  run_action w. unfold Store.createCard. unfold_store. simpl.
  destruct cs; unfold_service; simpl; eexists; reflexivity.
Qed.

Lemma deleteCard_store_working w id listId :
  working (env w) ->
  let doc := document CARDS ∅ (env w) in
  let filteredCards :=
    filter (fun c => card_id c ≠ id) (StorageService.at_key doc listId) in
  exists out,
    Store.run (Store.deleteCard id listId) w =
      mkWorld
        (with_loading (mkLoading (loading_boards (loading (mem w))) false None)
           (with_cards
              (<[listId := Some (filter (fun c => card_id c ≠ id)
                                        (or_empty (cards (mem w) !! listId)))]>
                 (cards (mem w))) (mem w)))
        (mkEnv (write_item CARDS
                  (Text (cards_toJSON
                           (if decide (length filteredCards = 0%nat) then delete listId doc
                            else <[listId := filteredCards]> doc)))
                  (disk (env w))) out).
Proof.
  run_action w. unfold Store.deleteCard. unfold_store. simpl.
  destruct cs; unfold_service; simpl; eexists; reflexivity.
Qed.

Lemma deleteList_store_working w id boardId :
  working (env w) ->
  let ldoc := document LISTS ∅ (env w) in
  let filteredLists :=
    filter (fun l => list_id l ≠ id) (StorageService.at_key ldoc boardId) in
  exists out,
    Store.run (Store.deleteList id boardId) w =
      mkWorld
        (with_loading (mkLoading (loading_boards (loading (mem w))) false None)
           (with_cards (<[id := None]> (cards (mem w)))
              (with_lists
                 (<[boardId := Some (filter (fun l => list_id l ≠ id)
                                            (or_empty (lists (mem w) !! boardId)))]>
                    (lists (mem w))) (mem w))))
        (mkEnv (mkLocalStorage Working (trello_boards (disk (env w)))
                  (Text (lists_toJSON
                           (if decide (length filteredLists = 0%nat)
                            then delete boardId ldoc
                            else <[boardId := filteredLists]> ldoc)))
                  (Text (cards_toJSON (delete id (document CARDS ∅ (env w)))))) out).
Proof.
  run_action w. unfold Store.deleteList. unfold_store. simpl.
  destruct ls, cs; unfold_service; simpl; eexists; reflexivity.
Qed.

Lemma reorderCards_working w listId startIndex endIndex :
  working (env w) ->
  let updatedCards :=
    renumberCards (Utils.reorder (or_empty (cards (mem w) !! listId)) startIndex endIndex) in
  exists out,
    Store.run (Store.reorderCards listId startIndex endIndex) w =
      mkWorld
        (with_cards (<[listId := Some updatedCards]> (cards (mem w))) (mem w))
        (mkEnv (write_item CARDS
                  (Text (cards_toJSON (<[listId := updatedCards]> (document CARDS ∅ (env w)))))
                  (disk (env w))) out).
Proof.
  run_action w. unfold Store.reorderCards. unfold_store. simpl.
  destruct cs; unfold_service; simpl; eexists; reflexivity.
Qed.

End StoreOnWorkingStorage.

Lemma dated_board_stored b : dated_board b -> stored_board (board_toJSON b).
Proof.
  destruct b as [i t d c u col]. intros [[tc Hc] [Hu|[tu Hu]]]; simpl in *; subst;
    (split; [by eexists|]); [by left|right; by eexists].
Qed.

Lemma dated_boards_revived bs :
  Forall dated_board bs -> revive_board <$> (board_toJSON <$> bs) = bs.
Proof.
  intros H. rewrite <- list_fmap_compose. rewrite <- (list_fmap_id bs) at 2.
  apply Forall_fmap_ext. eapply Forall_impl; [exact H|].
  intros [i t d c u col] [[tc Hc] [Hu|[tu Hu]]]; simpl in *; subst; reflexivity.
Qed.

Section StoreExtras.
#[local] Existing Instance StorageService_adapter.

(** ** Boards: memory, store and reload *)

(** X7.  [loadBoards] twice in a row leaves in memory what [loadBoards]
    once leaves, whatever the state of the store. *)
Theorem loadBoards_idempotent w :
  mem (Store.run Store.loadBoards (Store.run Store.loadBoards w))
    = mem (Store.run Store.loadBoards w).
Proof.
  destruct w as [m [[mode bs ls cs] out]].
  unfold Store.loadBoards. unfold_store. simpl.
  unfold_service; simpl. destruct mode; simpl; try destruct bs; reflexivity.
Qed.

(** X8.  While the stored boards are those in memory, with timestamps as
    [createBoard] and [updateBoard] set them, and the store passes the
    availability probe, [loadBoards] gives back in memory the boards that
    are there, [Date] timestamps included. *)
Theorem loadBoards_reloads_boards w :
  ls_state (disk (env w)) <> Unavailable ->
  boards_in_step w ->
  Forall dated_board (boards (mem w)) ->
  boards (mem (Store.run Store.loadBoards w)) = boards (mem w).
Proof.
  intros Hmode Hstep Hdated.
  destruct (loadBoards_available (env w) Hmode) as [out Hload].
  rewrite (loadBoards_resolved (service := StorageService_adapter) w _ _ Hload). simpl.
  rewrite Hstep. by apply dated_boards_revived.
Qed.



Lemma loadBoards_reloads_boards_witness :
  boards (mem (Store.run Store.loadBoards boardWithTwoCards))
    = boards (mem boardWithTwoCards).
Proof.
  apply (loadBoards_reloads_boards boardWithTwoCards).
  - discriminate.
  - vm_compute. reflexivity.
  - vm_compute. constructor; [|constructor].
    split; [eexists; reflexivity | right; eexists; reflexivity].
Defined.

(** ** Cards: memory and store *)

(** X10.  On a working store whose documents are text (they hold no [Date]),
    [createCard] into a list whose id is a plain key, with an id that no
    card of the list has, keeps memory and store in step: for every list
    whose stored cards were those in memory, they still are.  The new card
    is the last of its list, with the former length of the list as its
    position. *)
Theorem createCard_keeps_in_step w data newId createdNow updatedNow :
  plain_key (ccd_listId data) ->
  working (env w) ->
  json_cards (document CARDS ∅ (env w)) ->
  newId ∉ card_id <$> or_empty (cards (mem w) !! ccd_listId data) ->
  let old := or_empty (cards (mem w) !! ccd_listId data) in
  let w' := Store.run (Store.createCard data newId createdNow updatedNow) w in
  working (env w') /\
  json_cards (document CARDS ∅ (env w')) /\
  or_empty (cards (mem w') !! ccd_listId data)
    = old ++ [mkCard newId (ccd_title data) (ccd_description data) (ccd_listId data)
                     (Z.of_nat (length old))
                     (TsDate (Some createdNow)) (TsDate (Some updatedNow))] /\
  (forall k, cards_in_step k w -> cards_in_step k w').
Proof.
  intros _ Hworking Hjson Hfresh old w'.
  destruct (createCard_working w data newId createdNow updatedNow Hworking) as [out Hrun].
  unfold w'. rewrite Hrun. clear w' Hrun. fold old.
  set (card := Store.newCard _ _ _ _ _).
  set (listId := ccd_listId data) in *.
  unfold cards_in_step, working in *.
  change (env (mkWorld ?m ?e)) with e. rewrite !document_written.
  split_and!.
  - simpl. by destruct (disk (env w)).
  - apply cards_toJSON_json.
  - simpl. by rewrite lookup_insert_eq.
  - intros k Hk. simpl. unfold cards_toJSON. rewrite fmap_insert.
    fold (cards_toJSON (document CARDS ∅ (env w))). rewrite json_cards_fixed by done.
    destruct (decide (k = listId)) as [->|Hne].
    + rewrite at_key_insert, lookup_insert_eq. simpl.
      rewrite (upsert_fmap card_id card_toJSON) by done.
      rewrite json_card_fixed by (by apply at_key_Forall).
      rewrite Hk. fold old.
      rewrite upsert_fresh; [by rewrite fmap_app|].
      rewrite <- list_fmap_compose. simpl. exact Hfresh.
    + unfold StorageService.at_key in *. by rewrite !lookup_insert_ne.
Qed.

Lemma createCard_keeps_in_step_witness :
  cards_in_step "l1"
    (Store.run (Store.createCard (mkCreateCardData "C" "" "l1") "c3" 5000 5000)
       boardWithTwoCards).
Proof.
  apply (createCard_keeps_in_step boardWithTwoCards (mkCreateCardData "C" "" "l1")
           "c3" 5000 5000).
  - apply (bool_decide_unpack _). vm_compute. exact I.
  - vm_compute. reflexivity.
  - apply (bool_decide_unpack _). vm_compute. exact I.
  - apply (bool_decide_unpack _). vm_compute. exact I.
  - vm_compute. reflexivity.
Defined.

(** X11.  On a working store whose documents are text (they hold no [Date]),
    the store's [deleteCard], for a list id that is a plain key, keeps
    memory and store in step: it takes the cards with the given id out of
    the list in memory and out of the stored list alike, and for every list
    whose stored cards were those in memory, they still are. *)
Theorem deleteCard_keeps_in_step w id listId :
  plain_key listId ->
  working (env w) ->
  json_cards (document CARDS ∅ (env w)) ->
  let w' := Store.run (Store.deleteCard id listId) w in
  working (env w') /\
  json_cards (document CARDS ∅ (env w')) /\
  or_empty (cards (mem w') !! listId)
    = filter (fun c => card_id c ≠ id) (or_empty (cards (mem w) !! listId)) /\
  (forall k, cards_in_step k w -> cards_in_step k w').
Proof.
  intros _ Hworking Hjson w'.
  destruct (deleteCard_store_working w id listId Hworking) as [out Hrun].
  unfold w'. rewrite Hrun. clear w' Hrun.
  unfold cards_in_step, working in *.
  change (env (mkWorld ?m ?e)) with e. rewrite !document_written.
  set (doc := document CARDS ∅ (env w)) in *.
  set (filtered := filter _ (StorageService.at_key doc listId)).
  assert (Forall json_card filtered) as Hfiltered
    by (by apply Forall_filter_keep, at_key_Forall).
  split_and!.
  - simpl. by destruct (disk (env w)).
  - apply cards_toJSON_json.
  - simpl. by rewrite lookup_insert_eq.
  - intros k Hk. simpl.
    assert (StorageService.at_key
              (cards_toJSON (if decide (length filtered = 0%nat) then delete listId doc
                             else <[listId := filtered]> doc)) k
            = if decide (k = listId) then filtered else StorageService.at_key doc k)
      as ->.
    { destruct (decide (length filtered = 0%nat)) as [Hlen|Hlen].
      - rewrite json_cards_fixed by (by apply json_cards_delete).
        apply nil_length_inv in Hlen.
        destruct (decide (k = listId)) as [->|Hne]; [by rewrite at_key_delete|].
        unfold StorageService.at_key. by rewrite lookup_delete_ne.
      - rewrite cards_written_insert by done.
        destruct (decide (k = listId)) as [->|Hne]; [by rewrite at_key_insert|].
        unfold StorageService.at_key. by rewrite lookup_insert_ne. }
    destruct (decide (k = listId)) as [->|Hne].
    + rewrite lookup_insert_eq. simpl. unfold filtered. rewrite Hk.
      by apply (filter_fmap_id card_id card_toJSON).
    + by rewrite lookup_insert_ne.
Qed.

Lemma deleteCard_keeps_in_step_witness :
  cards_in_step "l1" (Store.run (Store.deleteCard "c1" "l1") boardWithTwoCards).
Proof.
  apply (deleteCard_keeps_in_step boardWithTwoCards "c1" "l1").
  - apply (bool_decide_unpack _). vm_compute. exact I.
  - vm_compute. reflexivity.
  - apply (bool_decide_unpack _). vm_compute. exact I.
  - vm_compute. reflexivity.
Defined.

(** X12.  On a working store whose documents are text (they hold no [Date]),
    the store's [deleteList], for a board id that is a plain key, removes
    the cards of the list with it, in memory and in the store: afterwards
    the list has no cards in memory, the stored cards have no key for it,
    and no list with that id is left among the lists of the board in memory
    or in the store. *)
Theorem deleteList_cascades w id boardId :
  plain_key boardId ->
  working (env w) ->
  json_lists (document LISTS ∅ (env w)) ->
  json_cards (document CARDS ∅ (env w)) ->
  let w' := Store.run (Store.deleteList id boardId) w in
  or_empty (cards (mem w') !! id) = [] /\
  document CARDS ∅ (env w') !! id = None /\
  (id ∉ list_id <$> or_empty (lists (mem w') !! boardId)) /\
  (id ∉ list_id <$> StorageService.at_key (document LISTS ∅ (env w')) boardId) /\
  (forall k, k <> id -> cards (mem w') !! k = cards (mem w) !! k) /\
  (forall k, k <> id -> document CARDS ∅ (env w') !! k = document CARDS ∅ (env w) !! k).
Proof.
  intros _ Hworking Hlists Hcards w'.
  destruct (deleteList_store_working w id boardId Hworking) as [out Hrun].
  unfold w'. rewrite Hrun. clear w' Hrun.
  change (env (mkWorld ?m ?e)) with e.
  rewrite !document_lists_text, !document_cards_text.
  set (ldoc := document LISTS ∅ (env w)) in *.
  set (filtered := filter _ (StorageService.at_key ldoc boardId)).
  assert (Forall json_list filtered) as Hfiltered
    by (by apply Forall_filter_keep, at_key_Forall).
  assert (forall (ls : list List), id ∉ list_id <$> filter (fun l => list_id l ≠ id) ls)
    as Hgone.
  { intros ls (l & Hid & [Hne _]%list_elem_of_filter)%list_elem_of_fmap. by apply Hne. }
  rewrite (json_cards_fixed (delete _ _)) by (by apply json_cards_delete).
  split_and!.
  - simpl. by rewrite lookup_insert_eq.
  - apply lookup_delete_eq.
  - simpl. rewrite lookup_insert_eq. simpl. apply Hgone.
  - destruct (decide (length filtered = 0%nat)) as [Hlen|Hlen].
    + rewrite json_lists_fixed by (by apply json_lists_delete).
      rewrite at_key_delete. by intros ?%elem_of_nil.
    + rewrite lists_written_insert by done. rewrite at_key_insert. apply Hgone.
  - intros k Hk. simpl. by rewrite lookup_insert_ne.
  - intros k Hk. by rewrite lookup_delete_ne.
Qed.

Lemma deleteList_cascades_witness :
  or_empty (cards (mem (Store.run (Store.deleteList "l1" "b1") twoLists)) !! "l1") = [] /\
  document CARDS ∅ (env (Store.run (Store.deleteList "l1" "b1") twoLists)) !! "l1" = None.
Proof.
  destruct (deleteList_cascades twoLists "l1" "b1") as (Hmem & Hstore & _).
  - apply (bool_decide_unpack _). vm_compute. exact I.
  - vm_compute. reflexivity.
  - apply (bool_decide_unpack _). vm_compute. exact I.
  - apply (bool_decide_unpack _). vm_compute. exact I.
  - split; [exact Hmem | exact Hstore].
Defined.

(** X13.  On a working store whose documents are text (they hold no [Date]),
    after [reorderCards] on a list whose id is a plain key the stored cards
    of the list are those in memory, whatever they were before, and their
    positions are 0, 1, ..., n-1 in sequence order; the other lists are as
    they were, in memory and in the store. *)
Theorem reorderCards_in_step_and_dense w listId startIndex endIndex :
  plain_key listId ->
  working (env w) ->
  json_cards (document CARDS ∅ (env w)) ->
  let w' := Store.run (Store.reorderCards listId startIndex endIndex) w in
  cards_in_step listId w' /\
  dense (cardPositions (or_empty (cards (mem w') !! listId))) /\
  dense (card_position <$> StorageService.at_key (document CARDS ∅ (env w')) listId) /\
  (forall k, k <> listId ->
     cards (mem w') !! k = cards (mem w) !! k /\
     document CARDS ∅ (env w') !! k = document CARDS ∅ (env w) !! k).
Proof.
  intros _ Hworking Hjson w'.
  destruct (reorderCards_working w listId startIndex endIndex Hworking) as [out Hrun].
  unfold w'. rewrite Hrun. clear w' Hrun.
  set (updated := renumberCards _).
  unfold cards_in_step.
  change (env (mkWorld ?m ?e)) with e. rewrite !document_written.
  unfold cards_toJSON. rewrite fmap_insert.
  fold (cards_toJSON (document CARDS ∅ (env w))). rewrite json_cards_fixed by done.
  assert (card_position <$> (card_toJSON <$> updated) = cardPositions updated) as Hpos.
  { unfold cardPositions. by rewrite <- list_fmap_compose. }
  split_and!.
  - simpl. by rewrite at_key_insert, lookup_insert_eq.
  - simpl. rewrite lookup_insert_eq. apply renumberCards_dense.
  - rewrite at_key_insert, Hpos. apply renumberCards_dense.
  - intros k Hk. simpl. by rewrite !lookup_insert_ne.
Qed.

Lemma reorderCards_in_step_and_dense_witness :
  cards_in_step "l1" (Store.run (Store.reorderCards "l1" 0 1) boardWithTwoCards).
Proof.
  apply (reorderCards_in_step_and_dense boardWithTwoCards "l1" 0 1).
  - apply (bool_decide_unpack _). vm_compute. exact I.
  - vm_compute. reflexivity.
  - apply (bool_decide_unpack _). vm_compute. exact I.
Defined.

(** X14.  On a working store whose documents are text (they hold no [Date]),
    [moveCard] between two different lists whose ids are plain keys persists
    the destination list only.  Afterwards the stored destination list is
    the one in memory, but the stored source list is what it was before the
    move: if it was in step with memory it no longer is, and it still holds
    the card that memory has moved away. *)
Theorem moveCard_persists_destination_only w cardId L1 L2 destIndex now c :
  plain_key L1 ->
  plain_key L2 ->
  working (env w) ->
  json_cards (document CARDS ∅ (env w)) ->
  L1 <> L2 ->
  find_ (fun x => card_id x = cardId) (or_empty (cards (mem w) !! L1)) = Some c ->
  let w' := Store.run (Store.moveCard cardId L1 L2 destIndex now) w in
  cards_in_step L2 w' /\
  StorageService.at_key (document CARDS ∅ (env w')) L1
    = StorageService.at_key (document CARDS ∅ (env w)) L1 /\
  (cards_in_step L1 w ->
     ~ cards_in_step L1 w' /\
     card_toJSON c ∈ StorageService.at_key (document CARDS ∅ (env w')) L1 /\
     (cardId ∉ card_id <$> or_empty (cards (mem w') !! L1))).
Proof.
  intros _ _ Hworking Hjson HL Hfind w'.
  destruct (moveCard_working w cardId L1 L2 destIndex now c Hworking Hfind) as [out Henv].
  pose proof (moveCard_mem w cardId L1 L2 destIndex now) as Hmem.
  simpl in Hmem. rewrite Hfind in Hmem.
  unfold cards_in_step. fold w' in Henv, Hmem. rewrite Henv, Hmem. clear Henv Hmem.
  rewrite !document_written.
  set (updatedDest := renumberCards (splice_insert _ _ _)).
  unfold cards_toJSON. rewrite fmap_insert.
  fold (cards_toJSON (document CARDS ∅ (env w))). rewrite json_cards_fixed by done.
  simpl. rewrite at_key_insert, lookup_insert_eq.
  rewrite lookup_insert_ne, lookup_insert_eq by done. simpl.
  assert (StorageService.at_key (<[L2 := card_toJSON <$> updatedDest]>
                                   (document CARDS ∅ (env w))) L1
          = StorageService.at_key (document CARDS ∅ (env w)) L1) as Hsource.
  { unfold StorageService.at_key. by rewrite lookup_insert_ne. }
  rewrite Hsource.
  apply find_elem_of in Hfind as [Hin Hid].
  split_and!; [done|done|]. intros Hstep. rewrite Hstep. split_and!.
  - intros Heq. apply (f_equal length) in Heq.
    rewrite !length_fmap, renumberCards_length in Heq.
    assert (~ card_id c ≠ cardId) as Hnot by (intros H; by apply H).
    pose proof (length_filter_lt (fun x => card_id x ≠ cardId) _ c Hin Hnot) as Hlt.
    lia.
  - by apply list_elem_of_fmap_2.
  - rewrite renumberCards_ids.
    intros (x & Hx & [Hne _]%list_elem_of_filter)%list_elem_of_fmap. by apply Hne.
Qed.

Lemma moveCard_persists_destination_only_witness :
  cards_in_step "l2" (Store.run (Store.moveCard "x" "l1" "l2" 0 6000) twoLists) /\
  ~ cards_in_step "l1" (Store.run (Store.moveCard "x" "l1" "l2" 0 6000) twoLists).
Proof.
  destruct (moveCard_persists_destination_only twoLists "x" "l1" "l2" 0 6000 cardX)
    as (Hdest & _ & Hsource).
  - apply (bool_decide_unpack _). vm_compute. exact I.
  - apply (bool_decide_unpack _). vm_compute. exact I.
  - vm_compute. reflexivity.
  - apply (bool_decide_unpack _). vm_compute. exact I.
  - discriminate.
  - vm_compute. reflexivity.
  - split; [exact Hdest|]. apply Hsource. vm_compute. reflexivity.
Defined.

End StoreExtras.

(** * The update actions *)

(** ** Finding and replacing by id *)

Section ById.
Context {A : Type} (id : A -> string).
Implicit Types (l : list A) (x y : A) (k : string).

Lemma find_by_id_None k l :
  find_ (fun x => id x = k) l = None <-> k ∉ id <$> l.
Proof.
  unfold find_. rewrite fmap_None, list_find_None, Forall_forall. split.
  - intros H (x & -> & Hx)%list_elem_of_fmap. by apply (H x).
  - intros H x Hx Hid. apply H. rewrite <- Hid. by apply list_elem_of_fmap_2.
Qed.

Lemma find_by_id_Some k l x :
  find_ (fun x => id x = k) l = Some x ->
  exists i, l !! i = Some x /\ id x = k.
Proof.
  unfold find_. intros ([i x'] & Hfind & ->)%fmap_Some.
  apply list_find_Some in Hfind as (? & ? & _). eauto.
Qed.

(** With distinct ids, replacing by id replaces at one index. *)
Lemma replace_by_id_unique k l i x y :
  NoDup (id <$> l) -> l !! i = Some x -> id x = k ->
  (fun z => if decide (id z = k) then y else z) <$> l = <[i := y]> l.
Proof.
  intros Hnodup Hx Hid. apply list_eq. intros j.
  rewrite list_lookup_fmap.
  assert (i < length l)%nat by (eapply lookup_lt_Some; eauto).
  destruct (decide (j = i)) as [->|Hne].
  - rewrite Hx, list_lookup_insert_eq by done. simpl. by rewrite decide_True.
  - rewrite list_lookup_insert_ne by done.
    destruct (l !! j) as [z|] eqn:Hz; [|done]. simpl.
    rewrite decide_False; [done|]. intros Hzid. apply Hne.
    apply (NoDup_lookup (id <$> l) j i k); [done| |].
    + by rewrite list_lookup_fmap, Hz; simpl; rewrite Hzid.
    + by rewrite list_lookup_fmap, Hx; simpl; rewrite Hid.
Qed.

(** With distinct ids, an upsert under an id that is there replaces at the
    index of that id. *)
Lemma upsert_unique l i x y :
  NoDup (id <$> l) -> l !! i = Some x -> id x = id y ->
  upsert id y l = <[i := y]> l.
Proof.
  intros Hnodup Hx Hid. unfold upsert, findIndex.
  destruct (list_find (fun z => id z = id y) l) as [[j z]|] eqn:Hfind.
  - apply list_find_Some in Hfind as (Hz & Hzid & _).
    assert (j = i) as ->.
    { apply (NoDup_lookup (id <$> l) j i (id y)); [done| |].
      - by rewrite list_lookup_fmap, Hz; simpl; rewrite Hzid.
      - by rewrite list_lookup_fmap, Hx; simpl; rewrite Hid. }
    destruct (Z.leb_spec 0 (Z.of_nat i)); [|lia].
    unfold assign_at. by rewrite Nat2Z.id.
  - apply list_find_None in Hfind. rewrite Forall_forall in Hfind.
    destruct (Hfind x); [|done]. by eapply list_elem_of_lookup_2.
Qed.

End ById.

(** ** The scan of [updateList] and [updateCard] *)

Lemma elem_of_entries {A} (dict : gmap string A) keys k v :
  (k, v) ∈ entries dict keys <-> k ∈ keys /\ dict !! k = Some v.
Proof.
  unfold entries. rewrite list_elem_of_omap. split.
  - intros (k' & Hk' & Hv). destruct (dict !! k') as [v'|] eqn:Hd; [|done].
    simpl in Hv. by injection Hv as -> ->.
  - intros [Hk Hv]. exists k. by rewrite Hv.
Qed.

(** An entry bound to [undefined] makes the scan throw, wherever it is. *)
Lemma scanCards_undefined id data now es found k :
  (k, None) ∈ es -> Updates.scanCards id data now es found = inl undefinedFindError.
Proof.
  revert found. induction es as [|[k' [cs|]] es IH]; intros found Hin.
  - by apply elem_of_nil in Hin.
  - apply elem_of_cons in Hin as [[=]|Hin]. simpl.
    destruct (find_ _ cs); by apply IH.
  - done.
Qed.

Lemma scanLists_undefined id data es found k :
  (k, None) ∈ es -> Updates.scanLists id data es found = inl undefinedFindError.
Proof.
  revert found. induction es as [|[k' [ls|]] es IH]; intros found Hin.
  - by apply elem_of_nil in Hin.
  - apply elem_of_cons in Hin as [[=]|Hin]. simpl.
    destruct (find_ _ ls); by apply IH.
  - done.
Qed.

(** When every entry is bound to a list and only the list under [L] holds
    the card, the scan finds it there if [L] is among the keys. *)
Lemma scanCards_unique id data now es L cs c found :
  find_ (fun x => card_id x = id) cs = Some c ->
  (forall k v, (k, v) ∈ es ->
     exists cs', v = Some cs' /\
       (k <> L -> find_ (fun x => card_id x = id) cs' = None) /\ (k = L -> cs' = cs)) ->
  Updates.scanCards id data now es found
    = inr (if decide (L ∈ es.*1) then Some (Updates.mergeCard c data now, L) else found).
Proof.
  intros Hfind. revert found. induction es as [|[k v] es IH]; intros found Hall.
  - done.
  - destruct (Hall k v) as (cs' & -> & Hother & Hsame); [left|].
    assert (forall k' v', (k', v') ∈ es ->
              exists cs'', v' = Some cs'' /\
                (k' <> L -> find_ (fun x => card_id x = id) cs'' = None) /\
                (k' = L -> cs'' = cs)) as Hrest
      by (intros k' v' Hin; apply Hall; by right).
    simpl. destruct (decide (k = L)) as [->|Hne].
    + rewrite (Hsame eq_refl), Hfind, IH by done.
      destruct (decide (L ∈ L :: _)) as [_|Hnotin]; [|destruct Hnotin; left].
      by destruct (decide (L ∈ es.*1)).
    + rewrite Hother, IH by done.
      destruct (decide (L ∈ es.*1)) as [Hin|Hnotin],
               (decide (L ∈ k :: _)) as [Hin'|Hnotin']; try done.
      * destruct Hnotin'. right. exact Hin.
      * apply elem_of_cons in Hin' as [Heq|Hin']; [by destruct Hne|].
        destruct Hnotin. exact Hin'.
Qed.

(** ** What the update actions leave behind *)

Section UpdatesOnStorageService.
#[local] Existing Instance StorageService_adapter.

Lemma updateBoard_working w id data now existingBoard :
  working (env w) ->
  find_ (fun b => board_id b = id) (boards (mem w)) = Some existingBoard ->
  let updatedBoard := Updates.mergeBoard existingBoard data now in
  exists out,
    Store.run (Updates.updateBoard id data now) w =
      mkWorld
        (with_loading (mkLoading (loading_boards (loading (mem w))) false None)
           (with_boards
              ((fun b => if decide (board_id b = id) then updatedBoard else b)
                 <$> boards (mem w)) (mem w)))
        (mkEnv (write_item BOARDS
                  (Text (boards_toJSON
                           (upsert board_id updatedBoard
                              (revive_board <$> document BOARDS [] (env w)))))
                  (disk (env w))) out).
Proof.
  destruct w as [m [[mode bs ls cs] out]]; unfold working; simpl; intros -> Hfind.
  unfold document; simpl.
  unfold Updates.updateBoard. unfold_store. simpl. rewrite Hfind.
  destruct bs; unfold_service; simpl; eexists; reflexivity.
Qed.

Lemma updateCard_working w id data now keys updatedCard listId listCards :
  working (env w) ->
  Updates.scanCards id data now (entries (cards (mem w)) keys) None
    = inr (Some (updatedCard, listId)) ->
  listId <> "" ->
  cards (mem w) !! listId = Some (Some listCards) ->
  let doc := document CARDS ∅ (env w) in
  exists out,
    Store.run (Updates.updateCard id data now keys) w =
      mkWorld
        (with_loading (mkLoading (loading_boards (loading (mem w))) false None)
           (with_cards
              (<[listId :=
                   Some ((fun c => if decide (card_id c = id) then updatedCard else c)
                           <$> listCards)]> (cards (mem w))) (mem w)))
        (mkEnv (write_item CARDS
                  (Text (cards_toJSON
                           (<[card_listId updatedCard :=
                                upsert card_id updatedCard
                                  (StorageService.at_key doc (card_listId updatedCard))]>
                              doc)))
                  (disk (env w))) out).
Proof.
  destruct w as [m [[mode bs ls cs] out]]; unfold working; simpl.
  intros -> Hscan Hkey Hlist.
  unfold document; simpl.
  unfold Updates.updateCard. unfold_store. simpl. rewrite Hscan.
  rewrite decide_False by done.
  destruct cs; unfold_service; simpl; rewrite Hlist; eexists; reflexivity.
Qed.

(** The memory that the store's [deleteList] and [deleteBoard] leave,
    whatever the state of the store. *)
Lemma deleteList_mem w id boardId :
  mem (Store.run (Store.deleteList id boardId) w) =
    with_loading (mkLoading (loading_boards (loading (mem w))) false None)
      (with_cards (<[id := None]> (cards (mem w)))
         (with_lists
            (<[boardId := Some (filter (fun l => list_id l ≠ id)
                                       (or_empty (lists (mem w) !! boardId)))]>
               (lists (mem w))) (mem w))).
Proof.
  destruct w as [m [[mode bs ls cs] out]].
  unfold Store.deleteList. unfold_store. simpl. unfold_service; simpl.
  destruct mode; simpl; try destruct ls; try destruct cs; reflexivity.
Qed.

Lemma deleteBoard_mem w id :
  mem (Store.run (Store.deleteBoard id) w) =
    with_loading (mkLoading (loading_boards (loading (mem w))) false None)
      (with_currentBoard
         (if decide (currentBoard (mem w) = Some id) then None else currentBoard (mem w))
         (with_lists (<[id := None]> (lists (mem w)))
            (with_boards (filter (fun b => board_id b ≠ id) (boards (mem w))) (mem w)))).
Proof.
  destruct w as [m [[mode bs ls cs] out]].
  unfold Store.deleteBoard. unfold_store. simpl. unfold_service; simpl.
  destruct mode; simpl; try destruct bs; try destruct ls; try destruct cs; reflexivity.
Qed.

End UpdatesOnStorageService.

Section UpdateExtras.
#[local] Existing Instance StorageService_adapter.

(** ** [updateBoard] *)

(** X15.  On a working store whose boards are those in memory, with distinct
    ids and [Date] timestamps, [updateBoard] of a board that is there
    replaces that board, at its index, by the merged one (the title, the
    description and the colour of the data where it has them, of the board
    where it has not; the id and the creation time of the board; the
    instant of the update as [updatedAt]), in memory and in the store
    alike: ids, order and creation times of the boards are kept,
    the stored boards are again those in memory, and no error is set. *)
Theorem updateBoard_in_place w id data now b :
  working (env w) ->
  boards_in_step w ->
  Forall dated_board (boards (mem w)) ->
  NoDup (board_id <$> boards (mem w)) ->
  find_ (fun x => board_id x = id) (boards (mem w)) = Some b ->
  let w' := Store.run (Updates.updateBoard id data now) w in
  (exists i, boards (mem w) !! i = Some b /\
     boards (mem w') =
       <[i := mkBoard (board_id b)
                      (default (board_title b) (ubd_title data))
                      (default (board_description b) (ubd_description data))
                      (board_createdAt b)
                      (TsDate (Some now))
                      (default (board_color b) (ubd_color data))]> (boards (mem w))) /\
  board_id <$> boards (mem w') = board_id <$> boards (mem w) /\
  board_createdAt <$> boards (mem w') = board_createdAt <$> boards (mem w) /\
  boards_in_step w' /\
  Forall dated_board (boards (mem w')) /\
  loading_error (loading (mem w')) = None.
Proof.
  intros Hworking Hstep Hdated Hnodup Hfind w'.
  destruct (updateBoard_working w id data now b Hworking Hfind) as [out Hrun].
  unfold w'. rewrite Hrun. clear w' Hrun.
  destruct (find_by_id_Some board_id id _ b Hfind) as (i & Hi & Hid).
  set (updated := Updates.mergeBoard b data now).
  assert (((fun x => if decide (board_id x = id) then updated else x) <$> boards (mem w))
            = <[i := updated]> (boards (mem w))) as Hmem
    by by apply (replace_by_id_unique board_id id _ i b).
  unfold boards_in_step in *.
  change (env (mkWorld ?m ?e)) with e.
  change (boards (mem (mkWorld (with_loading ?l (with_boards ?bs ?m)) ?e))) with bs.
  rewrite Hmem.
  assert (<[i := b]> (boards (mem w)) = boards (mem w)) as Hsame
    by by apply list_insert_id.
  split_and!.
  - by exists i.
  - rewrite list_fmap_insert. rewrite <- Hsame at 2. by rewrite list_fmap_insert.
  - rewrite list_fmap_insert. rewrite <- Hsame at 2. by rewrite list_fmap_insert.
  - rewrite document_written, Hstep, dated_boards_revived by done.
    by rewrite (upsert_unique board_id _ i b updated).
  - apply Forall_insert; [done|].
    rewrite Forall_lookup in Hdated. destruct (Hdated i b Hi) as [Hcreated _].
    split; [exact Hcreated | right; by eexists].
  - done.
Qed.

Lemma updateBoard_in_place_witness :
  boards_in_step
    (Store.run (Updates.updateBoard "b1"
                  (mkUpdateBoardData (Some "Renamed") None None None) 9000)
       boardWithTwoCards).
Proof.
  refine (proj1 (proj2 (proj2 (proj2
    (updateBoard_in_place boardWithTwoCards "b1"
       (mkUpdateBoardData (Some "Renamed") None None None) 9000
       (default (mkBoard "" "" "" TsUndef TsUndef "") (head (boards (mem boardWithTwoCards))))
       _ _ _ _ _))))).
  - vm_compute. reflexivity.
  - vm_compute. reflexivity.
  - vm_compute. constructor; [|constructor].
    split; [eexists; reflexivity | right; eexists; reflexivity].
  - apply (bool_decide_unpack _). vm_compute. exact I.
  - vm_compute. reflexivity.
Defined.

End UpdateExtras.

(** * Actions of the store over any service *)

Lemma try_catch_resolves {S} (body : M S unit) (handler : exn -> M S unit) :
  (forall e s, exists s', handler e s = (s', Resolved tt)) ->
  forall s, exists s', try_catch body handler s = (s', Resolved tt).
Proof.
  intros Hhandler s. unfold try_catch.
  destruct (body s) as [s' [[]|e]]; eauto.
Qed.

Section AnyServiceExtras.
Context {service : Service.Adapter}.

(** X17.  [moveCard] of a card that the source list, whose id is a plain
    key, does not hold, over any service, calls nothing of the service and
    changes nothing but the [error] of the loading state, which becomes
    "Card not found". *)
Theorem moveCard_unknown_card w cardId sourceListId destListId destIndex now :
  plain_key sourceListId ->
  cardId ∉ card_id <$> or_empty (cards (mem w) !! sourceListId) ->
  Store.moveCard cardId sourceListId destListId destIndex now w
    = (mkWorld (with_loading (with_error (Some "Card not found") (loading (mem w))) (mem w))
               (env w),
       Resolved tt).
Proof.
  intros _ Hnotin. apply find_by_id_None in Hnotin.
  unfold Store.moveCard. unfold_store. by rewrite Hnotin.
Qed.

(** X18.  [updateBoard] of an id that no board in memory has, over any
    service, calls nothing of the service and leaves the boards as they
    are; saving is over and the error is "Board not found". *)
Theorem updateBoard_unknown_board w id data now :
  id ∉ board_id <$> boards (mem w) ->
  Updates.updateBoard id data now w
    = (mkWorld (with_loading
                  (mkLoading (loading_boards (loading (mem w))) false
                             (Some "Board not found")) (mem w))
               (env w),
       Resolved tt).
Proof.
  intros Hnotin. apply find_by_id_None in Hnotin.
  unfold Updates.updateBoard. unfold_store. simpl. by rewrite Hnotin.
Qed.

(** An entry of the cards bound to [undefined] stops [updateCard] before it
    calls the service. *)
Lemma updateCard_undefined_entry w id data now keys k :
  k ∈ keys -> cards (mem w) !! k = Some None ->
  Updates.updateCard id data now keys w
    = (mkWorld (with_loading
                  (mkLoading (loading_boards (loading (mem w))) false
                             (Some (message_or undefinedFindError "Failed to update card")))
                  (mem w))
               (env w),
       Resolved tt).
Proof.
  intros Hk Hundef.
  assert ((k, None) ∈ entries (cards (mem w)) keys) as Hin by by apply elem_of_entries.
  unfold Updates.updateCard. unfold_store. simpl.
  by rewrite (scanCards_undefined id data now _ None k Hin).
Qed.

Lemma updateList_undefined_entry w id data keys k :
  k ∈ keys -> lists (mem w) !! k = Some None ->
  Updates.updateList id data keys w
    = (mkWorld (with_loading
                  (mkLoading (loading_boards (loading (mem w))) false
                             (Some (message_or undefinedFindError "Failed to update list")))
                  (mem w))
               (env w),
       Resolved tt).
Proof.
  intros Hk Hundef.
  assert ((k, None) ∈ entries (lists (mem w)) keys) as Hin by by apply elem_of_entries.
  unfold Updates.updateList. unfold_store. simpl.
  by rewrite (scanLists_undefined id data _ None k Hin).
Qed.

End AnyServiceExtras.

(** X16.  No action of the store ever rejects, whatever the service does
    (resolve, reject or throw): the promise that an action returns always
    resolves.  And over a service whose every call rejects, every action
    other than the two setters leaves the boards, the lists and the cards
    in memory as they were and ends with a message in the error slot. *)
Theorem store_actions_never_reject :
  (forall (service : Service.Adapter) (a : action) (w : World),
      exists w', dispatch a w = (w', Resolved tt)) /\
  (forall (error : exn) (a : action) (w : World),
      persists a = true ->
      let w' := Store.run (dispatch (service := rejectingService error) a) w in
      boards (mem w') = boards (mem w) /\
      lists (mem w') = lists (mem w) /\
      cards (mem w') = cards (mem w) /\
      env w' = env w /\
      exists message, loading_error (loading (mem w')) = Some message).
Proof.
  split.
  - intros service a w.
    destruct a; simpl;
      cbv [Store.loadBoards Store.createBoard Updates.updateBoard Store.deleteBoard
           Store.setCurrentBoard Store.loadLists Store.createList Updates.updateList
           Store.deleteList Store.reorderLists Store.loadCards Store.createCard
           Updates.updateCard Store.deleteCard Store.moveCard Store.reorderCards
           Updates.setError Store.startSaving Store.setState modify];
      try (eexists; reflexivity);
      try (apply try_catch_resolves; intros; eexists; reflexivity);
      (cbv [mbind M_bind]; apply try_catch_resolves; intros; eexists; reflexivity).
  - intros error a w Ha w'. unfold w'. clear w'.
    destruct w as [m e].
    destruct a; try discriminate Ha; simpl;
      cbv [Store.loadBoards Store.createBoard Updates.updateBoard Store.deleteBoard
           Store.loadLists Store.createList Updates.updateList
           Store.deleteList Store.reorderLists Store.loadCards Store.createCard
           Updates.updateCard Store.deleteCard Store.moveCard Store.reorderCards];
      unfold_store; simpl.
    all: repeat match goal with
         | |- context [find_ ?P ?l] => destruct (find_ P l)
         | |- context [Updates.scanLists ?i ?d ?es ?f] =>
             destruct (Updates.scanLists i d es f) as [?|[[? ?]|]]
         | |- context [Updates.scanCards ?i ?d ?n ?es ?f] =>
             destruct (Updates.scanCards i d n es f) as [?|[[? ?]|]]
         | |- context [decide (?x = "")] => destruct (decide (x = ""))
         end; simpl.
    all: split_and!; try reflexivity; by eexists.
Qed.

Lemma store_actions_never_reject_witness :
  cards (mem (Store.run (dispatch (service := rejectingService (Error "offline"))
                           (ACreateCard (mkCreateCardData "C" "" "l1") "c3" 5000 5000))
                boardWithTwoCards))
    = cards (mem boardWithTwoCards).
Proof.
  refine (proj1 (proj2 (proj2
    (proj2 store_actions_never_reject (Error "offline")
       (ACreateCard (mkCreateCardData "C" "" "l1") "c3" 5000 5000)
       boardWithTwoCards _)))).
  reflexivity.
Defined.

Lemma moveCard_unknown_card_witness :
  Store.moveCard (service := StorageService_adapter) "nowhere" "l1" "l2" 0 9000
      boardWithTwoCards
    = (mkWorld (with_loading (with_error (Some "Card not found")
                                (loading (mem boardWithTwoCards)))
                  (mem boardWithTwoCards))
               (env boardWithTwoCards),
       Resolved tt).
Proof.
  apply (moveCard_unknown_card (service := StorageService_adapter) boardWithTwoCards
           "nowhere" "l1" "l2" 0 9000).
  - apply (bool_decide_unpack _). vm_compute. exact I.
  - apply (bool_decide_unpack _). vm_compute. exact I.
Defined.

Lemma updateBoard_unknown_board_witness :
  Updates.updateBoard (service := StorageService_adapter) "nowhere"
      (mkUpdateBoardData (Some "Renamed") None None None) 9000 boardWithTwoCards
    = (mkWorld (with_loading
                  (mkLoading (loading_boards (loading (mem boardWithTwoCards))) false
                             (Some "Board not found")) (mem boardWithTwoCards))
               (env boardWithTwoCards),
       Resolved tt).
Proof.
  apply (updateBoard_unknown_board (service := StorageService_adapter) boardWithTwoCards
           "nowhere").
  apply (bool_decide_unpack _). vm_compute. exact I.
Defined.

(** * Updating after deleting, and updating a card in place *)

Lemma enumerates_dom {A} (keys : list string) (dict : gmap string A) :
  list_to_set keys = dom dict -> enumerates keys dict.
Proof.
  intros Hdom k. rewrite <- elem_of_dom, <- Hdom. by rewrite elem_of_list_to_set.
Qed.

Lemma card_toJSON_id c : card_id (card_toJSON c) = card_id c.
Proof. by destruct c. Qed.

Section UpdateAfterDelete.
#[local] Existing Instance StorageService_adapter.

(** X19.  Once the store's [deleteList] has run, for a board id that is a
    plain key, [updateCard] fails for every card, of whatever list,
    whatever the state of the store and in whatever order the keys of the
    cards enumerate: the deleted list is left in the cards of the memory as
    a key bound to [undefined], the loop of [updateCard] over the entries
    throws on it, and the action ends with the message of that error in the
    error slot, the cards and the store as they were. *)
Theorem updateCard_after_deleteList w listId boardId cardId data now keys :
  plain_key boardId ->
  let w1 := Store.run (Store.deleteList listId boardId) w in
  enumerates keys (cards (mem w1)) ->
  let w2 := Store.run (Updates.updateCard cardId data now keys) w1 in
  cards (mem w1) !! listId = Some None /\
  cards (mem w2) = cards (mem w1) /\
  env w2 = env w1 /\
  exists message, loading_error (loading (mem w2)) = Some message.
Proof.
  intros _ w1 Hkeys w2.
  assert (cards (mem w1) !! listId = Some None) as Hundef.
  { unfold w1. rewrite deleteList_mem. simpl. by rewrite lookup_insert_eq. }
  assert (listId ∈ keys) as Hin by (apply Hkeys; by rewrite Hundef).
  unfold w2, Store.run.
  rewrite (updateCard_undefined_entry w1 cardId data now keys listId Hin Hundef).
  split_and!; [done|done|done|by eexists].
Qed.

Lemma updateCard_after_deleteList_witness :
  exists message,
    loading_error
      (loading (mem (Store.run (Updates.updateCard "z"
                                  (mkUpdateCardData (Some "Z2") None None None)
                                  9000 ["l1"; "l2"])
                       (Store.run (Store.deleteList "l1" "b1") twoLists))))
      = Some message.
Proof.
  refine (proj2 (proj2 (proj2
    (updateCard_after_deleteList twoLists "l1" "b1" "z"
       (mkUpdateCardData (Some "Z2") None None None) 9000 ["l1"; "l2"] _ _)))).
  - apply (bool_decide_unpack _). vm_compute. exact I.
  - apply enumerates_dom. vm_compute. reflexivity.
Defined.

(** X20.  Once the store's [deleteBoard] has run, for a board id that is a
    plain key, [updateList] fails for every list, of whatever board,
    whatever the state of the store and in whatever order the keys of the
    lists enumerate: the deleted board is left in the lists of the memory
    as a key bound to [undefined], the loop of [updateList] over the
    entries throws on it, and the action ends with the message of that
    error in the error slot, the lists and the store as they were. *)
Theorem updateList_after_deleteBoard w boardId listId data keys :
  plain_key boardId ->
  let w1 := Store.run (Store.deleteBoard boardId) w in
  enumerates keys (lists (mem w1)) ->
  let w2 := Store.run (Updates.updateList listId data keys) w1 in
  lists (mem w1) !! boardId = Some None /\
  lists (mem w2) = lists (mem w1) /\
  env w2 = env w1 /\
  exists message, loading_error (loading (mem w2)) = Some message.
Proof.
  intros _ w1 Hkeys w2.
  assert (lists (mem w1) !! boardId = Some None) as Hundef.
  { unfold w1. rewrite deleteBoard_mem. simpl. by rewrite lookup_insert_eq. }
  assert (boardId ∈ keys) as Hin by (apply Hkeys; by rewrite Hundef).
  unfold w2, Store.run.
  rewrite (updateList_undefined_entry w1 listId data keys boardId Hin Hundef).
  split_and!; [done|done|done|by eexists].
Qed.

Lemma updateList_after_deleteBoard_witness :
  exists message,
    loading_error
      (loading (mem (Store.run (Updates.updateList "l1"
                                  (mkUpdateListData (Some "Doing") None) ["b1"])
                       (Store.run (Store.deleteBoard "b1") twoLists))))
      = Some message.
Proof.
  refine (proj2 (proj2 (proj2
    (updateList_after_deleteBoard twoLists "b1" "l1"
       (mkUpdateListData (Some "Doing") None) ["b1"] _ _)))).
  - apply (bool_decide_unpack _). vm_compute. exact I.
  - apply enumerates_dom. vm_compute. reflexivity.
Defined.

(** X21.  On a working store whose documents are text, while no key of the
    cards in memory is bound to [undefined] and the list under the key [L],
    a plain key which is not the empty string, holds distinct ids and is
    the only one to hold a card with the id, a card that has [L] as its
    [listId], [updateCard] replaces that card, at its index, by the merged
    one (the title, the description and the position of the data where it
    has them, of the card where it has not; the id, the [listId] and the
    creation time of the card; the instant of the update as [updatedAt]),
    in memory and in the store alike: the other lists are untouched, for
    every list whose stored cards were those in memory they still are, and
    no error is set. *)
Theorem updateCard_in_place w id data now keys L cs c :
  plain_key L ->
  working (env w) ->
  json_cards (document CARDS ∅ (env w)) ->
  enumerates keys (cards (mem w)) ->
  (forall k, cards (mem w) !! k <> Some None) ->
  L <> "" ->
  cards (mem w) !! L = Some (Some cs) ->
  NoDup (card_id <$> cs) ->
  find_ (fun x => card_id x = id) cs = Some c ->
  card_listId c = L ->
  (forall k cs', k <> L -> cards (mem w) !! k = Some (Some cs') -> id ∉ card_id <$> cs') ->
  let w' := Store.run (Updates.updateCard id data now keys) w in
  (exists i, cs !! i = Some c /\
     cards (mem w') !! L =
       Some (Some (<[i := mkCard (card_id c)
                                 (default (card_title c) (ucd_title data))
                                 (default (card_description c) (ucd_description data))
                                 (card_listId c)
                                 (default (card_position c) (ucd_position data))
                                 (card_createdAt c)
                                 (TsDate (Some now))]> cs))) /\
  (forall k, k <> L -> cards (mem w') !! k = cards (mem w) !! k) /\
  working (env w') /\
  json_cards (document CARDS ∅ (env w')) /\
  (forall k, cards_in_step k w -> cards_in_step k w') /\
  loading_error (loading (mem w')) = None.
Proof.
  intros _ Hworking Hjson Hkeys Hdefined HL Hcs Hnodup Hfind HlistId Hothers w'.
  set (updated := Updates.mergeCard c data now).
  assert (Updates.scanCards id data now (entries (cards (mem w)) keys) None
            = inr (Some (updated, L))) as Hscan.
  { rewrite (scanCards_unique id data now _ L cs c None Hfind).
    - rewrite decide_True; [done|].
      apply list_elem_of_fmap. exists (L, Some cs). split; [done|].
      apply elem_of_entries. split; [|done]. apply Hkeys. by rewrite Hcs.
    - intros k v [Hk Hv]%elem_of_entries.
      destruct v as [cs'|]; [|by destruct (Hdefined k)].
      exists cs'. split_and!; [done| |].
      + intros Hne. apply find_by_id_None. by apply (Hothers k).
      + intros ->. rewrite Hcs in Hv. by injection Hv. }
  destruct (updateCard_working w id data now keys updated L cs Hworking Hscan HL Hcs)
    as [out Hrun].
  unfold w'. rewrite Hrun. clear w' Hrun.
  destruct (find_by_id_Some card_id id cs c Hfind) as (i & Hi & Hid).
  assert (card_listId updated = L) as -> by done.
  rewrite (replace_by_id_unique card_id id cs i c updated) by done.
  unfold cards_in_step, working in *.
  change (env (mkWorld ?m ?e)) with e. rewrite !document_written.
  set (doc := document CARDS ∅ (env w)) in *.
  split_and!.
  - exists i. split; [done|]. simpl. by rewrite lookup_insert_eq.
  - intros k Hne. simpl. by rewrite lookup_insert_ne.
  - simpl. by destruct (disk (env w)).
  - apply cards_toJSON_json.
  - intros k Hk. simpl. unfold cards_toJSON. rewrite fmap_insert.
    fold (cards_toJSON doc). rewrite json_cards_fixed by done.
    destruct (decide (k = L)) as [->|Hne].
    + rewrite at_key_insert, lookup_insert_eq. simpl.
      rewrite Hk, Hcs. simpl.
      assert (card_id <$> (card_toJSON <$> cs) = card_id <$> cs) as Hids.
      { rewrite <- list_fmap_compose. apply list_fmap_ext. intros ? x _.
        apply card_toJSON_id. }
      rewrite (upsert_unique card_id (card_toJSON <$> cs) i (card_toJSON c) updated).
      * rewrite !list_fmap_insert. f_equal.
        apply json_card_fixed. apply Forall_fmap, Forall_forall. intros x _.
        apply card_toJSON_json.
      * by rewrite Hids.
      * by rewrite list_lookup_fmap, Hi.
      * rewrite card_toJSON_id. by rewrite Hid.
    + unfold StorageService.at_key in *. by rewrite !lookup_insert_ne.
  - done.
Qed.

End UpdateAfterDelete.

Lemma updateCard_in_place_witness :
  cards_in_step "l1"
    (Store.run (Updates.updateCard (service := StorageService_adapter) "c1"
                  (mkUpdateCardData (Some "A, edited") None None None) 9000 ["l1"])
       boardWithTwoCards).
Proof.
  refine (proj1 (proj2 (proj2 (proj2 (proj2
    (updateCard_in_place boardWithTwoCards "c1"
       (mkUpdateCardData (Some "A, edited") None None None) 9000 ["l1"] "l1"
       (or_empty (cards (mem boardWithTwoCards) !! "l1"))
       (default cardA (head (or_empty (cards (mem boardWithTwoCards) !! "l1"))))
       _ _ _ _ _ _ _ _ _ _ _))))) "l1" _).
  - apply (bool_decide_unpack _). vm_compute. exact I.
  - vm_compute. reflexivity.
  - apply (bool_decide_unpack _). vm_compute. exact I.
  - apply enumerates_dom. vm_compute. reflexivity.
  - assert (map_Forall (fun _ v => v <> None) (cards (mem boardWithTwoCards))) as Hall
      by (apply (bool_decide_unpack _); vm_compute; exact I).
    intros k Hk. exact (Hall k None Hk eq_refl).
  - discriminate.
  - vm_compute. reflexivity.
  - apply (bool_decide_unpack _). vm_compute. exact I.
  - vm_compute. reflexivity.
  - vm_compute. reflexivity.
  - assert (map_Forall (fun k v => k <> "l1" -> "c1" ∉ card_id <$> default [] v)
              (cards (mem boardWithTwoCards))) as Hall
      by (apply (bool_decide_unpack _); vm_compute; exact I).
    intros k cs' Hne Hk. exact (Hall k (Some cs') Hk Hne).
  - vm_compute. reflexivity.
Defined.

(** * The board view: a card dropped on another list *)

Section FindIndex.
Context {A : Type} (id : A -> string).
Implicit Types (l : list A) (k : string).

Lemma findIndex_unique l (j : nat) k :
  NoDup (id <$> l) -> (id <$> l) !! j = Some k ->
  findIndex (fun x => id x = k) l = Z.of_nat j.
Proof.
  intros Hnodup Hj. unfold findIndex.
  destruct (list_find (fun x => id x = k) l) as [[i x]|] eqn:Hfind.
  - apply list_find_Some in Hfind as (Hx & Hid & _). f_equal.
    apply (NoDup_lookup (id <$> l) i j k); [done| |done].
    by rewrite list_lookup_fmap, Hx; simpl; rewrite Hid.
  - apply list_find_None in Hfind. rewrite Forall_forall in Hfind.
    rewrite list_lookup_fmap in Hj.
    destruct (l !! j) as [x|] eqn:Hx; [|done]. injection Hj as Hid.
    destruct (Hfind x); [|done]. by eapply list_elem_of_lookup_2.
Qed.

Lemma findIndex_absent l k :
  k ∉ id <$> l -> findIndex (fun x => id x = k) l = -1.
Proof.
  intros Hnotin. apply find_by_id_None in Hnotin. unfold find_ in Hnotin.
  unfold findIndex. by destruct (list_find _ l).
Qed.

End FindIndex.

Lemma splice_insert_end {A} (x : A) l : splice_insert (Z.of_nat (length l)) x l = l ++ [x].
Proof.
  unfold splice_insert, splice_start.
  destruct (Z.ltb_spec (Z.of_nat (length l)) 0); [lia|].
  replace (Z.to_nat (Z.min _ _)) with (length l) by lia.
  by rewrite firstn_all, drop_all.
Qed.

Lemma splice_insert_inside {A} (x : A) l (j : nat) :
  (j <= length l)%nat -> splice_insert (Z.of_nat j) x l = take j l ++ x :: drop j l.
Proof.
  intros Hj. unfold splice_insert, splice_start.
  destruct (Z.ltb_spec (Z.of_nat j) 0); [lia|].
  by replace (Z.to_nat (Z.min _ _)) with j by lia.
Qed.

Lemma splice_insert_minus_one {A} (x : A) l :
  splice_insert (-1) x l = take (length l - 1) l ++ x :: drop (length l - 1) l.
Proof.
  unfold splice_insert, splice_start. simpl.
  by replace (Z.to_nat (Z.max _ _)) with (length l - 1)%nat by lia.
Qed.

Section DropOnOtherList.
#[local] Existing Instance StorageService_adapter.

(** X22.  A card that the list [L1] holds in memory, dropped on a card or on
    the droppable of another list [L2], the ids of both lists being plain
    keys, whatever the state of the store: the handler calls [moveCard], and
    in memory the card leaves [L1]; dropped on the list itself it becomes
    the last card of [L2]; dropped on a card that is at index [j] of [L2],
    the ids of [L2] being distinct, it is put in at index [j], before that
    card; dropped on a card that [L2] does not hold in memory it is put in
    before the last card of [L2]. *)
Theorem handleDragEnd_card_to_other_list boardId (a o : BoardView.Draggable) now w L1 c :
  BoardView.dnd_id a <> BoardView.dnd_id o ->
  BoardView.dnd_type a = Some "card" ->
  BoardView.dnd_listId a = Some L1 ->
  let L2 := BoardView.or_else (BoardView.dnd_listId o) (BoardView.dnd_id o) in
  L1 <> L2 ->
  plain_key L1 -> plain_key L2 ->
  find_ (fun x => card_id x = BoardView.dnd_id a) (or_empty (cards (mem w) !! L1)) = Some c ->
  let source := or_empty (cards (mem w) !! L1) in
  let dest := card_id <$> or_empty (cards (mem w) !! L2) in
  let w' := Store.run (BoardView.handleDragEnd boardId (BoardView.mkDragEndEvent a (Some o)) now) w in
  let dest' := card_id <$> or_empty (cards (mem w') !! L2) in
  card_id <$> or_empty (cards (mem w') !! L1)
    = card_id <$> filter (fun x => card_id x ≠ BoardView.dnd_id a) source /\
  (BoardView.dnd_type o <> Some "card" -> dest' = dest ++ [BoardView.dnd_id a]) /\
  (forall j : nat,
      BoardView.dnd_type o = Some "card" -> NoDup dest ->
      dest !! j = Some (BoardView.dnd_id o) ->
      dest' = take j dest ++ BoardView.dnd_id a :: drop j dest) /\
  (BoardView.dnd_type o = Some "card" -> BoardView.dnd_id o ∉ dest ->
      dest' = take (length dest - 1) dest ++ BoardView.dnd_id a
                :: drop (length dest - 1) dest).
Proof.
  intros Hid Htype HL1 L2 HL _ _ Hfind source dest w' dest'.
  set (destCards := or_empty (cards (mem w) !! L2)).
  set (destIndex :=
         if decide (BoardView.dnd_type o = Some "card")
         then findIndex (fun card => card_id card = BoardView.dnd_id o) destCards
         else Z.of_nat (length destCards)).
  assert (BoardView.handleDragEnd boardId (BoardView.mkDragEndEvent a (Some o)) now w
          = Store.moveCard (BoardView.dnd_id a) L1 L2 destIndex now w) as Hcall.
  { unfold BoardView.handleDragEnd. unfold_store. simpl.
    rewrite decide_False by done.
    rewrite decide_False by (rewrite Htype; discriminate).
    rewrite decide_True by done.
    fold L2. rewrite HL1. rewrite decide_False by (intros [=]; done).
    done. }
  assert (mem w' = mem (Store.run (Store.moveCard (BoardView.dnd_id a) L1 L2 destIndex now) w))
    as Hmem by (unfold w', Store.run; by rewrite Hcall).
  rewrite moveCard_mem, Hfind in Hmem.
  assert (card_id (Store.movedCard c L2 now) = BoardView.dnd_id a) as Hmoved
    by (simpl; by apply find_elem_of in Hfind as [_ ?]).
  assert (dest' = splice_insert destIndex (BoardView.dnd_id a) dest) as Hdest.
  { unfold dest'. rewrite Hmem. simpl. rewrite lookup_insert_eq. simpl.
    by rewrite renumberCards_ids, splice_insert_fmap, Hmoved. }
  split_and!.
  - rewrite Hmem. simpl. rewrite lookup_insert_ne, lookup_insert_eq by done. simpl.
    by rewrite renumberCards_ids.
  - intros Hlist. rewrite Hdest. unfold destIndex. rewrite decide_False by done.
    replace (length destCards) with (length dest) by (unfold dest; by rewrite length_fmap).
    apply splice_insert_end.
  - intros j Hcard Hnodup Hj. rewrite Hdest. unfold destIndex. rewrite decide_True by done.
    rewrite (findIndex_unique card_id destCards j) by done.
    apply splice_insert_inside. apply lookup_lt_Some in Hj. lia.
  - intros Hcard Hnotin. rewrite Hdest. unfold destIndex. rewrite decide_True by done.
    rewrite (findIndex_absent card_id destCards) by done.
    apply splice_insert_minus_one.
Qed.

Lemma handleDragEnd_card_to_other_list_witness :
  card_id <$> or_empty
    (cards (mem (Store.run
                   (BoardView.handleDragEnd "b1"
                      (BoardView.mkDragEndEvent
                         (BoardView.mkDraggable "x" (Some "card") (Some "l1"))
                         (Some (BoardView.mkDraggable "l2" (Some "list") (Some "l2"))))
                      6000)
                   twoLists)) !! "l2")
    = (card_id <$> or_empty (cards (mem twoLists) !! "l2")) ++ ["x"].
Proof.
  refine (proj1 (proj2
    (handleDragEnd_card_to_other_list "b1"
       (BoardView.mkDraggable "x" (Some "card") (Some "l1"))
       (BoardView.mkDraggable "l2" (Some "list") (Some "l2"))
       6000 twoLists "l1" cardX _ _ _ _ _ _ _)) _).
  - discriminate.
  - reflexivity.
  - reflexivity.
  - discriminate.
  - apply (bool_decide_unpack _). vm_compute. exact I.
  - apply (bool_decide_unpack _). vm_compute. exact I.
  - vm_compute. reflexivity.
  - discriminate.
Defined.

End DropOnOtherList.

(** * The board view: a list dragged over another *)

Lemma insertByPosition_last x sorted :
  Forall (fun y => list_position y <= list_position x) sorted ->
  BoardView.insertByPosition x sorted = sorted ++ [x].
Proof.
  induction 1 as [|y sorted Hy _ IH]; [done|]. simpl.
  destruct (Z.leb_spec (list_position y) (list_position x)); [|lia].
  by rewrite IH.
Qed.

(** Lists that are in the order of their positions are left as they are. *)
Lemma sortByPosition_sorted l :
  StronglySorted Z.le (listPositions l) -> BoardView.sortByPosition l = l.
Proof.
  unfold BoardView.sortByPosition.
  enough (forall sorted, StronglySorted Z.le (listPositions (sorted ++ l)) ->
            foldl (fun sorted x => BoardView.insertByPosition x sorted) sorted l
              = sorted ++ l) as Hgen by (apply (Hgen [])).
  induction l as [|x l IH]; intros sorted Hsorted; simpl.
  - by rewrite app_nil_r.
  - rewrite insertByPosition_last.
    + rewrite IH; [by rewrite <- app_assoc|]. by rewrite <- app_assoc.
    + apply Forall_forall. intros y Hy.
      unfold listPositions in Hsorted. rewrite fmap_app, fmap_cons in Hsorted.
      apply (StronglySorted_app_1_elem_of Z.le _ _ _ _ Hsorted).
      * by apply list_elem_of_fmap_2.
      * left.
Qed.

Section ListDrag.
Context {service : Service.Adapter}.

(** X23.  While the lists of the board are held in memory in the order of
    their positions, as [createList] and [reorderLists] leave them, a list
    dragged over another one makes the handler call [reorderLists] with
    the indices that the two lists have in memory, the array that
    [reorderLists] reorders; with equal indices it does nothing. *)
Theorem handleDragEnd_list_drag boardId (a o : BoardView.Draggable) now w :
  BoardView.dnd_id a <> BoardView.dnd_id o ->
  BoardView.dnd_type a = Some "list" ->
  let boardLists := or_empty (lists (mem w) !! boardId) in
  StronglySorted Z.le (listPositions boardLists) ->
  let oldIndex := findIndex (fun list => list_id list = BoardView.dnd_id a) boardLists in
  let newIndex := findIndex (fun list => list_id list = BoardView.dnd_id o) boardLists in
  BoardView.handleDragEnd boardId (BoardView.mkDragEndEvent a (Some o)) now w =
    if decide (oldIndex <> newIndex) then Store.reorderLists boardId oldIndex newIndex w
    else (w, Resolved tt).
Proof.
  intros Hid Htype boardLists Hsorted oldIndex newIndex.
  unfold BoardView.handleDragEnd. unfold_store. simpl.
  rewrite decide_False by done.
  rewrite decide_True by done.
  fold boardLists. rewrite sortByPosition_sorted by done.
  fold oldIndex newIndex.
  by destruct (decide (oldIndex <> newIndex)).
Qed.

End ListDrag.

Lemma handleDragEnd_list_drag_witness :
  BoardView.handleDragEnd (service := StorageService_adapter) "b1"
      (BoardView.mkDragEndEvent (BoardView.mkDraggable "l2" (Some "list") None)
         (Some (BoardView.mkDraggable "l1" (Some "list") None))) 6000 twoLists
    = if decide (findIndex (fun list => list_id list = "l2")
                   (or_empty (lists (mem twoLists) !! "b1"))
                 <> findIndex (fun list => list_id list = "l1")
                      (or_empty (lists (mem twoLists) !! "b1")))
      then Store.reorderLists (service := StorageService_adapter) "b1"
             (findIndex (fun list => list_id list = "l2")
                (or_empty (lists (mem twoLists) !! "b1")))
             (findIndex (fun list => list_id list = "l1")
                (or_empty (lists (mem twoLists) !! "b1")))
             twoLists
      else (twoLists, Resolved tt).
Proof.
  refine (handleDragEnd_list_drag (service := StorageService_adapter) "b1"
           (BoardView.mkDraggable "l2" (Some "list") None)
           (BoardView.mkDraggable "l1" (Some "list") None) 6000 twoLists _ _ _).
  - discriminate.
  - reflexivity.
  - apply (bool_decide_unpack _). vm_compute. exact I.
Defined.

(** * Positions of the lists of a board *)

Lemma seq_StronglySorted (start n : nat) : StronglySorted Z.le (Z.of_nat <$> seq start n).
Proof.
  revert start. induction n as [|n IH]; intros start; simpl; constructor; [apply IH|].
  apply Forall_forall. intros p (i & -> & Hi)%list_elem_of_fmap.
  apply elem_of_seq in Hi. lia.
Qed.

Lemma dense_StronglySorted positions : dense positions -> StronglySorted Z.le positions.
Proof. unfold dense. intros ->. apply seq_StronglySorted. Qed.

Lemma dense_snoc positions :
  dense positions -> dense (positions ++ [Z.of_nat (length positions)]).
Proof.
  unfold dense. intros Hdense. rewrite length_app. simpl.
  rewrite Nat.add_1_r, seq_S, fmap_app. simpl. by rewrite <- Hdense.
Qed.

Section ListPositions.
#[local] Existing Instance StorageService_adapter.

Lemma createList_mem w data newId now :
  lists (mem (Store.run (Store.createList data newId now) w)) !! cld_boardId data =
    Some (Some (or_empty (lists (mem w) !! cld_boardId data)
                  ++ [mkList newId (cld_title data) (cld_boardId data)
                        (Z.of_nat (length (or_empty (lists (mem w) !! cld_boardId data))))
                        (TsDate (Some now))])).
Proof.
  destruct w as [m [[mode bs ls cs] out]].
  unfold Store.createList. unfold_store. simpl. unfold_service; simpl.
  destruct mode; simpl; try destruct ls; simpl; by rewrite lookup_insert_eq.
Qed.

Lemma reorderLists_mem w boardId startIndex endIndex :
  lists (mem (Store.run (Store.reorderLists boardId startIndex endIndex) w)) !! boardId =
    Some (Some (renumberLists
                  (Utils.reorder (or_empty (lists (mem w) !! boardId)) startIndex endIndex))).
Proof.
  destruct w as [m [[mode bs ls cs] out]].
  unfold Store.reorderLists. unfold_store. simpl. unfold_service; simpl.
  destruct mode; simpl; try destruct ls; simpl; by rewrite lookup_insert_eq.
Qed.

(** X24.  Whatever the state of the store, for a board id that is a plain
    key, [createList] keeps the positions of the lists of the board in
    memory dense, the new list being the last one, and [reorderLists] leaves
    them dense; dense positions are in ascending order. *)
Theorem list_positions_stay_dense :
  (forall w data newId now,
      plain_key (cld_boardId data) ->
      let boardLists := or_empty (lists (mem w) !! cld_boardId data) in
      dense (listPositions boardLists) ->
      let w' := Store.run (Store.createList data newId now) w in
      let boardLists' := or_empty (lists (mem w') !! cld_boardId data) in
      list_id <$> boardLists' = (list_id <$> boardLists) ++ [newId] /\
      dense (listPositions boardLists') /\
      StronglySorted Z.le (listPositions boardLists')) /\
  (forall w boardId startIndex endIndex,
      plain_key boardId ->
      let w' := Store.run (Store.reorderLists boardId startIndex endIndex) w in
      let boardLists' := or_empty (lists (mem w') !! boardId) in
      dense (listPositions boardLists') /\
      StronglySorted Z.le (listPositions boardLists')).
Proof.
  split.
  - intros w data newId now _ boardLists Hdense w' boardLists'.
    assert (dense (listPositions boardLists')) as Hdense'.
    { unfold boardLists', w'. rewrite createList_mem. simpl. fold boardLists.
      unfold listPositions in *. rewrite fmap_app. simpl.
      rewrite <- (length_fmap list_position boardLists). by apply dense_snoc. }
    split_and!; [|done|by apply dense_StronglySorted].
    unfold boardLists', w'. rewrite createList_mem. simpl. by rewrite fmap_app.
  - intros w boardId startIndex endIndex _ w' boardLists'.
    assert (dense (listPositions boardLists')) as Hdense'.
    { unfold boardLists', w'. rewrite reorderLists_mem. simpl. apply renumberLists_dense. }
    split; [done|by apply dense_StronglySorted].
Qed.

Lemma list_positions_stay_dense_witness :
  dense (listPositions
           (or_empty (lists (mem (Store.run
                                    (Store.createList (mkCreateListData "Later" "b1") "l3" 7000)
                                    twoLists)) !! "b1"))).
Proof.
  refine (proj1 (proj2
    (proj1 list_positions_stay_dense twoLists (mkCreateListData "Later" "b1") "l3" 7000
       _ _))).
  - apply (bool_decide_unpack _). vm_compute. exact I.
  - vm_compute. reflexivity.
Defined.

End ListPositions.

(** * [StorageService] in any state of the store *)

(** X1.  No call of [StorageService] whose keys are plain rejects, in any
    state of the store (working, unavailable, quota exceeded) and whether
    the text under each key is missing, unparseable or a document of the
    shape the program writes; and the three loads leave what is stored as
    it is. *)
Theorem storage_calls_never_reject {T} (r : request T) (e : Env) :
  plain_request r ->
  exists e' v,
    settle (perform r) e = (e', Resolved v) /\
    match r with
    | LoadBoards | LoadLists | LoadCards => disk e' = disk e
    | _ => True
    end.
Proof.
  intros _. destruct e as [[mode bs ls cs] out].
  destruct r; unfold_service; simpl;
    destruct mode; simpl; eauto;
    try destruct bs; try destruct ls; try destruct cs; simpl; eauto.
Qed.

Lemma storage_calls_never_reject_witness :
  exists e' v,
    settle (perform (DeleteList "l1" "b1"))
           (mkEnv (mkLocalStorage Working BadText BadText NoItem) [])
      = (e', Resolved v).
Proof.
  destruct (storage_calls_never_reject (DeleteList "l1" "b1")
              (mkEnv (mkLocalStorage Working BadText BadText NoItem) []))
    as (e' & v & Hrun & _).
  - apply (bool_decide_unpack _). vm_compute. exact I.
  - exists e', v. exact Hrun.
Defined.
